(** * Healthcare AI assistant, chat frontend: REST client and view-state controller

    A shallow embedding of
    - [src/services/api.js]: [normalizeBaseUrl], [tryParseJson],
      [buildHttpError] and what the four operations do with the response of
      [fetch] (the URL and the body of the request are left out);
    - [src/App.js]: the state of [App], its two loading effects, [canSend],
      [handleSelectPatient], [handleCreatePatient] and [handleSend].

    JavaScript strings are sequences of UTF-16 code units, JSON payloads are
    JavaScript values, and every [async] function is cut at its [await] into
    the part that runs before the request and the part that runs once the
    promise has settled. *)

From Stdlib Require Import String Ascii DecimalString.
From Stdlib Require Import List NArith ZArith Bool Arith Lia Permutation.
Import ListNotations.

Set Warnings "-register-all".

(* ------------------------------------------------------------------------- *)
(** ** JavaScript strings and values *)

Module Js.

(** A string is a list of UTF-16 code units. *)
Definition code_unit := N.
Definition jsstring := list code_unit.

(** An ASCII literal of the source, as code units. *)
Definition lit (s : string) : jsstring :=
  map N_of_ascii (list_ascii_of_string s).

Fixpoint jseqb (a b : jsstring) : bool :=
  match a, b with
  | [], [] => true
  | x :: a', y :: b' => N.eqb x y && jseqb a' b'
  | _, _ => false
  end.

Definition is_empty (s : jsstring) : bool :=
  match s with [] => true | _ :: _ => false end.

(** [WhiteSpace] and [LineTerminator] of ECMAScript: what [String.prototype.trim]
    removes and what the regular expression class [\s] matches. *)
Definition isWhiteSpace (c : code_unit) : bool :=
  ((9 <=? c) && (c <=? 13) || (c =? 32) || (c =? 160) || (c =? 5760)
   || (8192 <=? c) && (c <=? 8202) || (c =? 8232) || (c =? 8233)
   || (c =? 8239) || (c =? 8287) || (c =? 12288) || (c =? 65279))%N.

Definition slash : code_unit := 47%N.
Definition isSlash (c : code_unit) : bool := N.eqb c slash.

Fixpoint dropWhile (p : code_unit -> bool) (s : jsstring) : jsstring :=
  match s with
  | [] => []
  | c :: r => if p c then dropWhile p r else s
  end.

(** Removes the longest suffix whose code units all satisfy [p]. *)
Fixpoint dropWhileEnd (p : code_unit -> bool) (s : jsstring) : jsstring :=
  match s with
  | [] => []
  | c :: r =>
      let r' := dropWhileEnd p r in
      if is_empty r' && p c then [] else c :: r'
  end.

(** [s.trim()] *)
Definition trim (s : jsstring) : jsstring :=
  dropWhileEnd isWhiteSpace (dropWhile isWhiteSpace s).

(** [s.replace(/\/+$/, "")]: the pattern is anchored at the end of the input,
    so the one match it can have is the whole trailing run of slashes. *)
Definition stripTrailingSlashes (s : jsstring) : jsstring :=
  dropWhileEnd isSlash s.

(** [s.replace(/\s+/g, " ")]: every maximal run of white space becomes one
    space. [in_run] tells that the previous code unit was white space. *)
Fixpoint collapseFrom (in_run : bool) (s : jsstring) : jsstring :=
  match s with
  | [] => []
  | c :: r =>
      if isWhiteSpace c
      then (if in_run then collapseFrom true r else 32%N :: collapseFrom true r)
      else c :: collapseFrom false r
  end.

Definition collapseWhiteSpace (s : jsstring) : jsstring := collapseFrom false s.

(** A string in which white space only occurs as single spaces. *)
Fixpoint collapsedFrom (after_space : bool) (s : jsstring) : bool :=
  match s with
  | [] => true
  | c :: r =>
      if isWhiteSpace c
      then N.eqb c 32 && negb after_space && collapsedFrom true r
      else collapsedFrom false r
  end.

Definition isCollapsed (s : jsstring) : bool := collapsedFrom false s.

(** [s.toLowerCase()], on the letters A to Z. Other code units are kept: the
    one use of it is a comparison of the end of the string with ["/api"], and
    no code unit outside A to Z becomes one of [/], [a], [p], [i] on its own
    when lowered. *)
Definition lowerUnit (c : code_unit) : code_unit :=
  if ((65 <=? c) && (c <=? 90))%N then (c + 32)%N else c.

Definition toLowerCase (s : jsstring) : jsstring := map lowerUnit s.

(** [s.endsWith(suffix)] *)
Definition endsWith (s suffix : jsstring) : bool :=
  if length s <? length suffix then false
  else jseqb (skipn (length s - length suffix) s) suffix.

(** [s.slice(0, e)]: a negative [e] counts from the end. *)
Definition slice0 (e : Z) (s : jsstring) : jsstring :=
  if (e <? 0)%Z
  then firstn (Z.to_nat (Z.max (Z.of_nat (length s) + e) 0)) s
  else firstn (Z.to_nat e) s.

(** A non-negative integer in a template literal. *)
Definition decimal (n : N) : jsstring :=
  lit (NilEmpty.string_of_uint (N.to_uint n)).

(** Values, as [JSON.parse] and object literals build them. A number is kept
    as the text [Number::toString] gives for it (floating point is not
    modelled): zero is ["0"], not-a-number is ["NaN"]. The properties of an
    object are kept in the order they were written. *)
Inductive JsVal : Type :=
| JUndefined
| JNull
| JBool (b : bool)
| JNum (text : jsstring)
| JStr (s : jsstring)
| JArr (elems : list JsVal)
| JObj (props : list (jsstring * JsVal)).

(** [ToBoolean] *)
Definition truthy (v : JsVal) : bool :=
  match v with
  | JUndefined | JNull => false
  | JBool b => b
  | JNum t => negb (jseqb t (lit "0") || jseqb t (lit "NaN"))
  | JStr s => negb (is_empty s)
  | JArr _ | JObj _ => true
  end.

(** [a || b] *)
Definition or_else (a b : JsVal) : JsVal := if truthy a then a else b.

Fixpoint lookup (k : jsstring) (props : list (jsstring * JsVal)) : JsVal :=
  match props with
  | [] => JUndefined
  | (k', v) :: r => if jseqb k k' then v else lookup k r
  end.

(** [v?.k] for a key [k] that no built-in prototype defines ([detail],
    [message], [error], [agent1], [agent2], [messages], [id]): the own
    property of an object, [undefined] for everything else. [v.k] is the same
    where the source has made sure that [v] is neither [null] nor
    [undefined]. *)
Definition get (v : JsVal) (k : jsstring) : JsVal :=
  match v with
  | JObj props => lookup k props
  | _ => JUndefined
  end.

Fixpoint hasKey (k : jsstring) (props : list (jsstring * JsVal)) : bool :=
  match props with
  | [] => false
  | (k', _) :: r => jseqb k k' || hasKey k r
  end.

Fixpoint joinWith (sep : jsstring) (parts : list jsstring) : jsstring :=
  match parts with
  | [] => []
  | [p] => p
  | p :: rest => p ++ sep ++ joinWith sep rest
  end.

(** [ToString], as a template literal applies it; [None] is the [TypeError]
    of [OrdinaryToPrimitive]. An array is joined with commas, [null] and
    [undefined] elements giving the empty string. An object goes through
    [toString] then [valueOf]: [Object.prototype.toString] answers
    ["[object Object]"], unless the object has a [toString] property of its
    own, which in a parsed payload is never a function; [valueOf] then gives
    back the object and the conversion throws. *)
Fixpoint ToString (v : JsVal) : option jsstring :=
  match v with
  | JUndefined => Some (lit "undefined")
  | JNull => Some (lit "null")
  | JBool true => Some (lit "true")
  | JBool false => Some (lit "false")
  | JNum t => Some t
  | JStr s => Some s
  | JArr elems =>
      let fix parts (l : list JsVal) : option (list jsstring) :=
        match l with
        | [] => Some []
        | e :: r =>
            let here :=
              match e with
              | JUndefined | JNull => Some []
              | _ => ToString e
              end in
            match here, parts r with
            | Some s, Some ss => Some (s :: ss)
            | _, _ => None
            end
        end in
      match parts elems with
      | Some ss => Some (joinWith (lit ",") ss)
      | None => None
      end
  | JObj props =>
      if hasKey (lit "toString") props then None
      else Some (lit "[object Object]")
  end.

(** Comparison of two values by content. *)
Fixpoint JsVal_eqb (a b : JsVal) : bool :=
  match a, b with
  | JUndefined, JUndefined => true
  | JNull, JNull => true
  | JBool x, JBool y => Bool.eqb x y
  | JNum x, JNum y => jseqb x y
  | JStr x, JStr y => jseqb x y
  | JArr xs, JArr ys =>
      (fix all2 (l : list JsVal) (m : list JsVal) : bool :=
         match l, m with
         | [], [] => true
         | x :: l', y :: m' => JsVal_eqb x y && all2 l' m'
         | _, _ => false
         end) xs ys
  | JObj ps, JObj qs =>
      (fix all2 (l : list (jsstring * JsVal)) (m : list (jsstring * JsVal))
         : bool :=
         match l, m with
         | [], [] => true
         | (k, x) :: l', (k', y) :: m' =>
             jseqb k k' && JsVal_eqb x y && all2 l' m'
         | _, _ => false
         end) ps qs
  | _, _ => false
  end.

(** What a statement or a settled promise ends with: a value, or a thrown
    exception. *)
Inductive Exn : Type :=
| Error (message : jsstring)
| TypeError (message : jsstring)
| SyntaxError (message : jsstring).

Inductive completion (A : Type) : Type :=
| Normal (a : A)
| Throw (e : Exn).

Arguments Normal {A} a.
Arguments Throw {A} e.

(** [a === b], for operands of which one at least is a primitive value. Two
    objects or two arrays are equal when they are the same object, which
    their content does not tell: [None]. [NaN] is not equal to itself. *)
Definition strictEquals (a b : JsVal) : option bool :=
  match a, b with
  | JUndefined, JUndefined => Some true
  | JNull, JNull => Some true
  | JBool x, JBool y => Some (Bool.eqb x y)
  | JNum x, JNum y => Some (jseqb x y && negb (jseqb x (lit "NaN")))
  | JStr x, JStr y => Some (jseqb x y)
  | JArr _, JArr _ => None
  | JObj _, JObj _ => None
  | _, _ => Some false
  end.

Definition isNullish (v : JsVal) : bool :=
  match v with
  | JUndefined | JNull => true
  | _ => false
  end.

(** [encodeURIComponent(s)]: the letters, the digits and [-_.!~*'()] are
    kept, every other code point is written as the octets of its UTF-8
    form, each as [%XX]; [None] is the [URIError] for a surrogate without
    its pair. *)
Definition isUnreserved (c : code_unit) : bool :=
  ((65 <=? c) && (c <=? 90) || (97 <=? c) && (c <=? 122)
   || (48 <=? c) && (c <=? 57)
   || (c =? 45) || (c =? 95) || (c =? 46) || (c =? 33) || (c =? 126)
   || (c =? 42) || (c =? 39) || (c =? 40) || (c =? 41))%N.

Definition hexDigit (n : N) : code_unit :=
  (if n <? 10 then 48 + n else 55 + n)%N.

Definition percent : code_unit := 37%N.

Definition percentOctet (b : N) : jsstring :=
  [percent; hexDigit ((b / 16) mod 16)%N; hexDigit (b mod 16)%N].

Definition utf8 (cp : N) : list N :=
  (if cp <? 128 then [cp]
   else if cp <? 2048 then [192 + cp / 64; 128 + cp mod 64]
   else if cp <? 65536
        then [224 + cp / 4096; 128 + (cp / 64) mod 64; 128 + cp mod 64]
        else [240 + cp / 262144; 128 + (cp / 4096) mod 64;
              128 + (cp / 64) mod 64; 128 + cp mod 64])%N.

Definition escaped (cp : N) : jsstring := concat (map percentOctet (utf8 cp)).

Definition isLead (c : code_unit) : bool := ((55296 <=? c) && (c <=? 56319))%N.
Definition isTrail (c : code_unit) : bool := ((56320 <=? c) && (c <=? 57343))%N.

Definition codePoint (lead trail : code_unit) : N :=
  (65536 + (lead - 55296) * 1024 + (trail - 56320))%N.

Fixpoint encodeURIComponent (s : jsstring) : option jsstring :=
  match s with
  | [] => Some []
  | c :: rest =>
      if isUnreserved c then option_map (cons c) (encodeURIComponent rest)
      else if isLead c then
        match rest with
        | d :: rest' =>
            if isTrail d
            then option_map (app (escaped (codePoint c d)))
                            (encodeURIComponent rest')
            else None
        | [] => None
        end
      else if isTrail c then None
      else option_map (app (escaped c)) (encodeURIComponent rest)
  end.

(** [s.isWellFormed()]: no surrogate stands without its pair. *)
Fixpoint isWellFormed (s : jsstring) : bool :=
  match s with
  | [] => true
  | c :: rest =>
      if isLead c then
        match rest with
        | d :: rest' => isTrail d && isWellFormed rest'
        | [] => false
        end
      else negb (isTrail c) && isWellFormed rest
  end.

End Js.

Import Js.

(* ------------------------------------------------------------------------- *)
(** ** [services/api.js] *)

Module Api.

(** [normalizeBaseUrl(url)], [url] being [process.env.REACT_APP_BACKEND_URL]:
    [None] when the variable is not set. *)
Definition normalizeBaseUrl (url : option jsstring) : jsstring :=
  match url with
  | None => lit "/api"
  | Some s =>
      if is_empty s then lit "/api"
      else
        let u := stripTrailingSlashes (trim s) in
        let u := if endsWith (toLowerCase u) (lit "/api")
                 then slice0 (-4) u else u in
        if is_empty u then lit "/api" else u
  end.

(** The resolution the specification describes for a value that is set,
    [t] being the value without the white space around it: [r] is [t]
    without its trailing slashes and without one ["/api"], in any
    capitalisation, before them. *)
Inductive strippedTo (t r : jsstring) : Prop :=
| stripped_plain (sl : jsstring) :
    t = r ++ sl ->
    forallb isSlash sl = true ->
    (forall y, r <> y ++ [slash]) ->
    (forall y x, r = y ++ x -> toLowerCase x <> lit "/api") ->
    strippedTo t r
| stripped_api (x sl : jsstring) :
    t = r ++ x ++ sl ->
    toLowerCase x = lit "/api" ->
    forallb isSlash sl = true ->
    strippedTo t r.

(** A [Response] of [fetch]. The body is a stream that is read once:
    [res.json()] and [res.text()] both consume it, and reject with a
    [TypeError] when the body is not [null] and has been read already, whether
    or not the first reader could make sense of it. [asJson] and [asText] are
    what the two readers settle with when they do read the body. *)
Record Response : Type := {
  status : N;
  statusText : jsstring;
  hasBody : bool;
  bodyUsed : bool;
  asJson : completion JsVal;
  asText : completion jsstring
}.

(** [res.ok] *)
Definition ok (res : Response) : bool :=
  ((200 <=? status res) && (status res <=? 299))%N.

Definition alreadyRead : Exn := TypeError (lit "body stream already read").

Definition consumed (res : Response) : Response :=
  {| status := status res; statusText := statusText res;
     hasBody := hasBody res; bodyUsed := hasBody res;
     asJson := asJson res; asText := asText res |}.

(** [await res.json()] and [await res.text()], with the response after. *)
Definition json (res : Response) : completion JsVal * Response :=
  if hasBody res && bodyUsed res then (Throw alreadyRead, res)
  else (asJson res, consumed res).

Definition text (res : Response) : completion jsstring * Response :=
  if hasBody res && bodyUsed res then (Throw alreadyRead, res)
  else (asText res, consumed res).

Definition tryParseJson (res : Response) : JsVal * Response :=
  match json res with
  | (Normal v, res') => (v, res')
  | (Throw _, res') => (JNull, res')
  end.

Definition emDash : jsstring := [8212%N].

Definition cannotConvert : Exn :=
  TypeError (lit "Cannot convert object to primitive value").

(** [data?.detail || data?.message || data?.error] *)
Definition errorField (data : JsVal) : JsVal :=
  or_else (or_else (get data (lit "detail")) (get data (lit "message")))
          (get data (lit "error")).

(** [(text || "").replace(/\s+/g, " ").slice(0, 160)] *)
Definition snippetOf (t : jsstring) : jsstring :=
  slice0 160 (collapseWhiteSpace (if is_empty t then [] else t)).

Definition statusLine (res : Response) (defaultMsg : jsstring) : jsstring :=
  defaultMsg ++ lit ": HTTP " ++ decimal (status res) ++ lit " "
  ++ statusText res.

(** The two last returns of [buildHttpError], in its [try] and [catch]. *)
Definition textFallback (res : Response) (defaultMsg : jsstring) : Exn :=
  match text res with
  | (Normal t, _) =>
      Error (statusLine res defaultMsg
             ++ lit " " ++ emDash ++ lit " " ++ snippetOf t)
  | (Throw _, _) => Error (statusLine res defaultMsg)
  end.

(** [buildHttpError(res, defaultMsg)]: the [Error] it returns, or what it
    throws. The template of the first return is outside every [try]. *)
Definition buildHttpError (res : Response) (defaultMsg : jsstring)
  : completion Exn :=
  let (data, res) := tryParseJson res in
  if truthy data then
    let detail := errorField data in
    if truthy detail then
      match ToString detail with
      | Some shown => Normal (Error (defaultMsg ++ lit ": " ++ shown))
      | None => Throw cannotConvert
      end
    else Normal (textFallback res defaultMsg)
  else Normal (textFallback res defaultMsg).

(** The body shared by the operations, from the settled [fetch] on:
    [if (!res.ok) throw await buildHttpError(res, msg); return res.json();] *)
Definition respond (defaultMsg : jsstring) (fetched : completion Response)
  : completion JsVal :=
  match fetched with
  | Throw e => Throw e
  | Normal res =>
      if ok res then fst (json res)
      else match buildHttpError res defaultMsg with
           | Normal err => Throw err
           | Throw e => Throw e
           end
  end.

Definition fetchPatients : completion Response -> completion JsVal :=
  respond (lit "Failed to fetch patients").

(** [patientId] is the id as the template of the message shows it. *)
Definition fetchPatientHistory (patientId : jsstring)
  : completion Response -> completion JsVal :=
  respond (lit "Failed to fetch history for " ++ patientId).

Definition createOrUpdatePatient : completion Response -> completion JsVal :=
  respond (lit "Failed to save patient").

Definition sendChatMessage : completion Response -> completion JsVal :=
  respond (lit "Failed to send message").

(** *** The requests *)

(** The URL of [fetchPatientHistory]:
    [`${BASE_URL}/patients/${encodeURIComponent(patientId)}/history`];
    [None] when the template throws, either in the conversion of the id to a
    string or in its encoding. *)
Definition historyUrl (base : jsstring) (patientId : JsVal) : option jsstring :=
  match ToString patientId with
  | None => None
  | Some shown =>
      match encodeURIComponent shown with
      | None => None
      | Some encoded =>
          Some (base ++ lit "/patients/" ++ encoded ++ lit "/history")
      end
  end.

(** [Object.entries(v)] for a value that is neither [null] nor [undefined]:
    the properties of an object, the elements of an array and the code units
    of a string under their indices, nothing for a number or a boolean. *)
Fixpoint indexedFrom (i : N) (l : list JsVal) : list (jsstring * JsVal) :=
  match l with
  | [] => []
  | v :: r => (decimal i, v) :: indexedFrom (i + 1) r
  end.

Definition entries (v : JsVal) : list (jsstring * JsVal) :=
  match v with
  | JObj props => props
  | JArr elems => indexedFrom 0 elems
  | JStr s => indexedFrom 0 (map (fun c => JStr [c]) s)
  | _ => []
  end.

(** The [clean] of [createOrUpdatePatient], the object that is sent:
    [Object.fromEntries(Object.entries(patient || {}).filter(([, v]) =>
    v !== undefined && v !== null))]. The entries of one object have distinct
    keys, so [Object.fromEntries] keeps them all, in their order. *)
Definition clean (patient : JsVal) : JsVal :=
  JObj (filter (fun kv => negb (isNullish (snd kv)))
               (entries (if truthy patient then patient else JObj []))).

(** *** The two earlier drafts of the module *)

(** [process.env.REACT_APP_BACKEND_URL || "/api"] *)
Definition draftBaseUrl (url : option jsstring) : jsstring :=
  match url with
  | None => lit "/api"
  | Some s => if is_empty s then lit "/api" else s
  end.

(** The error of the second draft:
    [detail ? `${msg}: ${detail}` : `${msg}: ${res.status}`] with
    [detail = data?.detail || data?.message]. *)
Definition draftError (res : Response) (defaultMsg : jsstring)
  : completion Exn :=
  let (data, _) := tryParseJson res in
  let detail := or_else (get data (lit "detail")) (get data (lit "message")) in
  if truthy detail then
    match ToString detail with
    | Some shown => Normal (Error (defaultMsg ++ lit ": " ++ shown))
    | None => Throw cannotConvert
    end
  else Normal (Error (defaultMsg ++ lit ": " ++ decimal (status res))).

(** The error of the first draft: [`${msg}: ${res.status}`]. *)
Definition firstDraftError (res : Response) (defaultMsg : jsstring) : Exn :=
  Error (defaultMsg ++ lit ": " ++ decimal (status res)).

End Api.

Import Api.

(* ------------------------------------------------------------------------- *)
(** ** [App.js]: the view state and its handlers *)

Module App.

(** The [useState] cells of [App] ([theme] apart, which only sets a style
    attribute). *)
Record ViewState : Type := {
  patients : list JsVal;
  activePatient : JsVal;
  messages : list JsVal;
  userInput : jsstring;
  loading : bool;
  savingPatient : bool;
  error : jsstring
}.

(** The state and what [console.error] has received. *)
Record World : Type := {
  view : ViewState;
  console : list Exn
}.

Definition initialView : ViewState :=
  {| patients := []; activePatient := JNull; messages := [];
     userInput := []; loading := false; savingPatient := false; error := [] |}.

Definition initialWorld : World := {| view := initialView; console := [] |}.

(** Statements: they change the world and end normally or by throwing. *)
Definition M (A : Type) : Type := World -> completion A * World.

Definition ret {A : Type} (a : A) : M A := fun w => (Normal a, w).

Definition bind {A B : Type} (m : M A) (k : A -> M B) : M B :=
  fun w =>
    match m w with
    | (Normal a, w') => k a w'
    | (Throw e, w') => (Throw e, w')
    end.

(** [await p], for a promise that has settled with [c]. *)
Definition await {A : Type} (c : completion A) : M A := fun w => (c, w).

Definition try_catch {A : Type} (body : M A) (handler : Exn -> M A) : M A :=
  fun w =>
    match body w with
    | (Throw e, w') => handler e w'
    | done => done
    end.

Definition try_finally {A : Type} (body : M A) (final : M unit) : M A :=
  fun w =>
    let (r, w') := body w in
    match final w' with
    | (Normal _, w'') => (r, w'')
    | (Throw e, w'') => (Throw e, w'')
    end.

Notation "x <- m ;; k" := (bind m (fun x => k))
  (at level 61, m at next level, right associativity).
Notation "m ;; k" := (bind m (fun _ => k))
  (at level 61, right associativity).

Definition getView : M ViewState := fun w => (Normal (view w), w).

Definition update (f : ViewState -> ViewState) : M unit :=
  fun w => (Normal tt, {| view := f (view w); console := console w |}).

Definition console_error (e : Exn) : M unit :=
  fun w => (Normal tt, {| view := view w; console := console w ++ [e] |}).

(** The setters of [useState]; [setPatients] and [setMessages] take the
    updater function. *)
Definition setPatients (f : list JsVal -> list JsVal) : M unit :=
  update (fun st =>
    {| patients := f (patients st); activePatient := activePatient st;
       messages := messages st; userInput := userInput st;
       loading := loading st; savingPatient := savingPatient st;
       error := error st |}).

Definition setActivePatient (p : JsVal) : M unit :=
  update (fun st =>
    {| patients := patients st; activePatient := p;
       messages := messages st; userInput := userInput st;
       loading := loading st; savingPatient := savingPatient st;
       error := error st |}).

Definition setMessages (f : list JsVal -> list JsVal) : M unit :=
  update (fun st =>
    {| patients := patients st; activePatient := activePatient st;
       messages := f (messages st); userInput := userInput st;
       loading := loading st; savingPatient := savingPatient st;
       error := error st |}).

Definition setUserInput (s : jsstring) : M unit :=
  update (fun st =>
    {| patients := patients st; activePatient := activePatient st;
       messages := messages st; userInput := s;
       loading := loading st; savingPatient := savingPatient st;
       error := error st |}).

Definition setLoading (b : bool) : M unit :=
  update (fun st =>
    {| patients := patients st; activePatient := activePatient st;
       messages := messages st; userInput := userInput st;
       loading := b; savingPatient := savingPatient st;
       error := error st |}).

Definition setSavingPatient (b : bool) : M unit :=
  update (fun st =>
    {| patients := patients st; activePatient := activePatient st;
       messages := messages st; userInput := userInput st;
       loading := loading st; savingPatient := b;
       error := error st |}).

Definition setError (s : jsstring) : M unit :=
  update (fun st =>
    {| patients := patients st; activePatient := activePatient st;
       messages := messages st; userInput := userInput st;
       loading := loading st; savingPatient := savingPatient st;
       error := s |}).

(** *** Initial load of the patients *)

(** What [fetchPatients] resolves with: the array of the contract, or [None]
    for a body that is [null]. *)
Definition PatientsPayload : Type := option (list JsVal).

(** The body of the first effect after [await fetchPatients()]. *)
Definition loadPatients_resume (o : completion PatientsPayload) : M unit :=
  try_catch
    (data <- await o ;;
     let list := match data with Some l => l | None => [] end in
     setPatients (fun _ => list) ;;
     if 0 <? length list
     then setActivePatient (nth 0 list JUndefined)
     else ret tt)
    (fun e =>
       console_error e ;;
       setError (lit "Unable to load patients.")).

(** *** Loading the history of the active patient *)

(** What [fetchPatientHistory] resolves with: [null], or an object whose
    [messages] is missing or the array of the contract. *)
Inductive HistoryPayload : Type :=
| HistoryNull
| HistoryObject (messages : option (list JsVal)).

Definition historyMessages (h : HistoryPayload) : list JsVal :=
  match h with
  | HistoryObject (Some l) => l
  | _ => []
  end.

(** The second effect up to its [await]: the id the history is asked for, if
    a request is made. *)
Definition historyEffect_begin : M (option JsVal) :=
  st <- getView ;;
  if negb (truthy (activePatient st))
     || negb (truthy (get (activePatient st) (lit "id")))
  then setMessages (fun _ => []) ;; ret None
  else ret (Some (get (activePatient st) (lit "id"))).

(** The second effect after [await fetchPatientHistory(activePatient.id)]. *)
Definition historyEffect_resume (o : completion HistoryPayload) : M unit :=
  try_catch
    (history <- await o ;;
     setMessages (fun _ => historyMessages history))
    (fun e =>
       console_error e ;;
       setError (lit "Unable to load chat history.")).

(** *** Sending *)

Definition canSend (st : ViewState) : bool :=
  (0 <? length (trim (userInput st)))
  && truthy (activePatient st)
  && negb (loading st).

(** One reading of the clock: [Date.now()] and [new Date().toISOString()]. *)
Record Clock : Type := { now : N; iso : jsstring }.

Definition messageObject (idPrefix : jsstring) (clk : Clock)
    (role agent content : jsstring) : JsVal :=
  JObj [ (lit "id", JStr (idPrefix ++ decimal (now clk)));
         (lit "role", JStr role);
         (lit "agent", JStr agent);
         (lit "content", JStr content);
         (lit "ts", JStr (iso clk)) ].

Definition userMessage (clk : Clock) (input : jsstring) : JsVal :=
  messageObject (lit "user-") clk (lit "user") (lit "user") (trim input).

Definition agent1Default : jsstring :=
  lit "I'm Agent 1. I will ask you health-related questions to record symptoms.".

Definition agent2Default : jsstring :=
  lit "I'm Agent 2. Based on symptoms, I will recommend appropriate medicine.".

Definition agent1Fallback (clk : Clock) : JsVal :=
  messageObject (lit "agent1-") clk (lit "assistant") (lit "agent1") agent1Default.

Definition agent2Fallback (clk : Clock) : JsVal :=
  messageObject (lit "agent2-") clk (lit "assistant") (lit "agent2") agent2Default.

(** The argument of [sendChatMessage]. *)
Record SendRequest : Type := { patientId : JsVal; message : jsstring }.

(** [handleSend] up to its [await]: the request, if one is made. [canSend],
    [userInput] and [activePatient] are those of the render the handler
    belongs to. *)
Definition handleSend_begin (clk : Clock) : M (option SendRequest) :=
  st <- getView ;;
  if negb (canSend st) then ret None
  else
    setLoading true ;;
    setError [] ;;
    let userMsg := userMessage clk (userInput st) in
    setMessages (fun prev => prev ++ [userMsg]) ;;
    setUserInput [] ;;
    ret (Some {| patientId := get (activePatient st) (lit "id");
                 message := trim (userInput st) |}).

(** [handleSend] after [await sendChatMessage(...)]; [clk1] and [clk2] are
    the clock readings of the two fallback literals. *)
Definition handleSend_resume (clk1 clk2 : Clock) (o : completion JsVal)
  : M unit :=
  try_finally
    (try_catch
       (resp <- await o ;;
        let agent1Msg :=
          or_else (get resp (lit "agent1")) (agent1Fallback clk1) in
        let agent2Msg :=
          or_else (get resp (lit "agent2")) (agent2Fallback clk2) in
        setMessages (fun prev => prev ++ [agent1Msg; agent2Msg]))
       (fun e =>
          console_error e ;;
          setError (lit "Unable to send message. Please try again.")))
    (setLoading false).

(** *** Selecting and creating patients *)

Definition handleSelectPatient (p : JsVal) : M unit :=
  setActivePatient p ;;
  setError [].

(** [handleCreatePatient] up to its [await]; [name] is what [prompt]
    returned. The result is the patient sent to [createOrUpdatePatient]. *)
Definition handleCreatePatient_begin (name : JsVal) : M (option JsVal) :=
  if negb (truthy name) then ret None
  else
    setSavingPatient true ;;
    ret (Some (JObj [(lit "name", name)])).

Definition handleCreatePatient_resume (o : completion JsVal) : M unit :=
  try_finally
    (try_catch
       (saved <- await o ;;
        setPatients (fun prev => saved :: prev) ;;
        setActivePatient saved)
       (fun e =>
          console_error e ;;
          setError (lit "Unable to create patient.")))
    (setSavingPatient false).

(** *** What [MainChat] shows *)

(** The bubbles of the chat list: [patient && messages.map(...)]. *)
Definition renderedMessages (st : ViewState) : list JsVal :=
  if truthy (activePatient st) then messages st else [].

(** *** The theme *)

(** The updater of [toggleTheme]. *)
Definition toggleTheme (prev : jsstring) : jsstring :=
  if jseqb prev (lit "light") then lit "dark" else lit "light".

(** The [aria-label] of the button of [Header]. *)
Definition themeLabel (theme : jsstring) : jsstring :=
  lit "Switch to "
  ++ (if jseqb theme (lit "light") then lit "dark" else lit "light")
  ++ lit " mode".

(** *** [MainChat] *)

(** [onKeyDown] of the text area: whether [preventDefault] was called, and
    the request [onSend] has issued. *)
Definition onKeyDown (clk : Clock) (key : jsstring) (shiftKey : bool)
  : M (bool * option SendRequest) :=
  if jseqb key (lit "Enter") && negb shiftKey
  then r <- handleSend_begin clk ;; ret (true, r)
  else ret (false, None).

(** The send button: [disabled={!canSend}] and its text. *)
Definition sendDisabled (st : ViewState) : bool := negb (canSend st).

Definition sendLabel (st : ViewState) : jsstring :=
  if loading st then lit "Sending..." else lit "Send".

(** *** [Sidebar] *)

(** Whether the entry of [p] gets the class [active]:
    [activePatient?.id === p.id]. [None] when the render throws ([p] is
    [null] or [undefined]) or when both ids are objects. *)
Definition isActiveItem (active p : JsVal) : option bool :=
  if isNullish p then None
  else strictEquals (get active (lit "id")) (get p (lit "id")).

(** *** [MessageBubble] *)

(** [message.agent === a] *)
Definition agentIs (message : JsVal) (a : jsstring) : bool :=
  match get message (lit "agent") with
  | JStr s => jseqb s a
  | _ => false
  end.

Definition bubbleClass (message : JsVal) : jsstring :=
  joinWith (lit " ")
    [ lit "msg";
      if agentIs message (lit "user") then lit "user" else [];
      if agentIs message (lit "agent1") then lit "agent1" else [];
      if agentIs message (lit "agent2") then lit "agent2" else [] ].

Definition badge (message : JsVal) : jsstring :=
  if agentIs message (lit "user") then lit "You"
  else if agentIs message (lit "agent1") then lit "AI Agent 1"
  else lit "AI Agent 2".

(** The class and the badge of the bubble; [None] when reading
    [message.agent] throws, [message] being [null] or [undefined]. *)
Definition MessageBubble (message : JsVal) : option (jsstring * jsstring) :=
  if isNullish message then None
  else Some (bubbleClass message, badge message).

End App.

Import App.



(* ------------------------------------------------------------------------- *)
(** ** The page as a transition system *)

Module System.

(** The calls of the REST client that have not settled yet. *)
Inductive Request : Type :=
| ReqPatients
| ReqHistory (patientId : JsVal)
| ReqSend (r : SendRequest)
| ReqCreate (patient : JsVal).

Record Config : Type := {
  world : World;
  inFlight : list Request;
  mounted : bool
}.

Definition initial : Config :=
  {| world := initialWorld; inFlight := []; mounted := false |}.

(** What happens to the page: the first render, the intents of the user and
    the settling of a call. *)
Inductive Event : Type :=
| Mount
| PatientsSettled (o : completion PatientsPayload)
| SelectPatient (index : nat)
| HistorySettled (o : completion HistoryPayload)
| Input (value : jsstring)
| Send (clk : Clock)
| SendSettled (clk1 clk2 : Clock) (o : completion JsVal)
| CreatePatient (name : JsVal)
| CreateSettled (o : completion JsVal).

Definition isPatients (r : Request) : bool :=
  match r with ReqPatients => true | _ => false end.
Definition isHistory (r : Request) : bool :=
  match r with ReqHistory _ => true | _ => false end.
Definition isSend (r : Request) : bool :=
  match r with ReqSend _ => true | _ => false end.
Definition isCreate (r : Request) : bool :=
  match r with ReqCreate _ => true | _ => false end.

(** Takes the oldest call of one kind out of the calls in flight. *)
Fixpoint settle (kind : Request -> bool) (l : list Request)
  : option (list Request) :=
  match l with
  | [] => None
  | r :: rest =>
      if kind r then Some rest
      else match settle kind rest with
           | Some rest' => Some (r :: rest')
           | None => None
           end
  end.

Definition issued {A : Type} (req : A -> Request) (r : completion (option A))
  : list Request :=
  match r with
  | Normal (Some a) => [req a]
  | _ => []
  end.

(** After a render in which [activePatient] is another value than [before],
    React runs the history effect again. Patients are compared by content. *)
Definition afterRender (before : JsVal) (w : World) : World * list Request :=
  if JsVal_eqb before (activePatient (view w)) then (w, [])
  else let (r, w') := historyEffect_begin w in (w', issued ReqHistory r).

(** Runs a handler, then the effects of the render that follows. *)
Definition handle {A : Type} (m : M A) (calls : completion A -> list Request)
    (others : list Request) (c : Config) : Config :=
  let before := activePatient (view (world c)) in
  let (r, w1) := m (world c) in
  let (w2, more) := afterRender before w1 in
  {| world := w2; inFlight := others ++ calls r ++ more; mounted := true |}.

Definition none {A : Type} (_ : completion A) : list Request := [].

(** [None]: the event cannot happen in this configuration. *)
Definition step (ev : Event) (c : Config) : option Config :=
  match ev with
  | Mount =>
      if mounted c then None
      else
        let (r, w') := historyEffect_begin (world c) in
        Some {| world := w';
                inFlight := ReqPatients :: issued ReqHistory r;
                mounted := true |}
  | PatientsSettled o =>
      match settle isPatients (inFlight c) with
      | Some others => Some (handle (loadPatients_resume o) none others c)
      | None => None
      end
  | SelectPatient index =>
      if mounted c then
        match nth_error (patients (view (world c))) index with
        | Some p => Some (handle (handleSelectPatient p) none (inFlight c) c)
        | None => None
        end
      else None
  | HistorySettled o =>
      match settle isHistory (inFlight c) with
      | Some others => Some (handle (historyEffect_resume o) none others c)
      | None => None
      end
  | Input value =>
      if mounted c
      then Some (handle (setUserInput value) none (inFlight c) c)
      else None
  | Send clk =>
      if mounted c
      then Some (handle (handleSend_begin clk) (issued ReqSend) (inFlight c) c)
      else None
  | SendSettled clk1 clk2 o =>
      match settle isSend (inFlight c) with
      | Some others =>
          Some (handle (handleSend_resume clk1 clk2 o) none others c)
      | None => None
      end
  | CreatePatient name =>
      if mounted c && negb (savingPatient (view (world c)))
      then Some (handle (handleCreatePatient_begin name) (issued ReqCreate)
                        (inFlight c) c)
      else None
  | CreateSettled o =>
      match settle isCreate (inFlight c) with
      | Some others =>
          Some (handle (handleCreatePatient_resume o) none others c)
      | None => None
      end
  end.

Fixpoint run (evs : list Event) (c : Config) : option Config :=
  match evs with
  | [] => Some c
  | ev :: rest =>
      match step ev c with
      | Some c' => run rest c'
      | None => None
      end
  end.

Inductive reachable : Config -> Prop :=
| reach_initial : reachable initial
| reach_step (ev : Event) (c c' : Config) :
    reachable c -> step ev c = Some c' -> reachable c'.

Definition sendsInFlight (c : Config) : nat :=
  length (filter isSend (inFlight c)).

(** The invariant of the page: a send is in flight exactly while [loading]
    is set, and nothing has happened before the first render. *)
Definition oneSend (c : Config) : Prop :=
  sendsInFlight c = (if loading (view (world c)) then 1 else 0)
  /\ (mounted c = false -> c = initial).



End System.

Import System.

(* ------------------------------------------------------------------------- *)
(** ** Inputs of the scenarios *)

Module Scenario.

Definition jane : JsVal :=
  JObj [(lit "id", JStr (lit "p1")); (lit "name", JStr (lit "Jane"))].

Definition john : JsVal :=
  JObj [(lit "id", JStr (lit "p2")); (lit "name", JStr (lit "John"))].

(** A message of the history of Jane. *)
Definition janeSaid : JsVal :=
  JObj [(lit "id", JStr (lit "m1")); (lit "role", JStr (lit "user"));
        (lit "agent", JStr (lit "user"));
        (lit "content", JStr (lit "I have a headache"));
        (lit "ts", JStr (lit "2024-01-01T10:00:00.000Z"))].

Definition noon : Clock :=
  {| now := 1704110400000%N; iso := lit "2024-01-01T12:00:00.000Z" |}.

Definition networkDown : Exn := TypeError (lit "Failed to fetch").

(** Jane is shown with her history, and the user clicks on John. *)
Definition switchToJohn : list Event :=
  [ Mount;
    PatientsSettled (Normal (Some [jane; john]));
    HistorySettled (Normal (HistoryObject (Some [janeSaid])));
    SelectPatient 1 ].

(** The page once Jane's history has arrived. *)
Definition janeShown : Config :=
  {| world := {| view := {| patients := [jane; john]; activePatient := jane;
                            messages := [janeSaid]; userInput := [];
                            loading := false; savingPatient := false;
                            error := [] |};
                 console := [] |};
     inFlight := [];
     mounted := true |}.

(** A state in which Jane is active and the user has typed a message. *)
Definition typedHello : World :=
  {| view := {| patients := [jane]; activePatient := jane; messages := [];
                userInput := lit " Hello "; loading := false;
                savingPatient := false; error := [] |};
     console := [] |}.

(** The same while an earlier message is being sent. *)
Definition sendingHello : World :=
  {| view := {| patients := [jane]; activePatient := jane; messages := [];
                userInput := lit "Hello"; loading := true;
                savingPatient := false; error := [] |};
     console := [] |}.

(** The answers of the two agents, and a payload that names the second
    agent first. *)
Definition intakeReply : JsVal :=
  JObj [(lit "id", JStr (lit "a1")); (lit "role", JStr (lit "assistant"));
        (lit "agent", JStr (lit "agent1"));
        (lit "content", JStr (lit "Where does it hurt?"));
        (lit "ts", JStr (lit "2024-01-01T12:00:01.000Z"))].

Definition adviceReply : JsVal :=
  JObj [(lit "id", JStr (lit "a2")); (lit "role", JStr (lit "assistant"));
        (lit "agent", JStr (lit "agent2"));
        (lit "content", JStr (lit "Rest and drink water."));
        (lit "ts", JStr (lit "2024-01-01T12:00:02.000Z"))].

Definition secondFirst : JsVal :=
  JObj [(lit "agent2", adviceReply); (lit "threadId", JStr (lit "t1"));
        (lit "agent1", intakeReply)].

Definition onlyAdvice : JsVal := JObj [(lit "agent2", adviceReply)].

(** A validation error whose [detail] is an object with a [toString] entry,
    and an HTML page of a gateway. *)
(** A validation error of the backend, with a [message] beside the
    [detail]. *)
Definition notFound : Response :=
  {| status := 404; statusText := lit "Not Found";
     hasBody := true; bodyUsed := false;
     asJson := Normal (JObj [(lit "message", JStr (lit "gone"));
                             (lit "detail", JStr (lit "Patient not found"))]);
     asText := Normal (lit "{}") |}.

(** A patient form in which the age was left open. *)
Definition annForm : JsVal :=
  JObj [(lit "name", JStr (lit "Ann")); (lit "age", JNull);
        (lit "notes", JStr (lit "allergic to penicillin"))].


(** A response built without a body, as a test double is. *)
Definition bodiless : Response :=
  {| status := 500; statusText := lit "Internal Server Error";
     hasBody := false; bodyUsed := false;
     asJson := Throw (SyntaxError (lit "Unexpected end of JSON input"));
     asText := Normal [] |}.

Definition helloTrace : list Event :=
  [ Mount;
    PatientsSettled (Normal (Some [jane; john]));
    HistorySettled (Normal (HistoryObject (Some [janeSaid])));
    Input (lit "Hello");
    Send noon ].

Definition oddDetail : Response :=
  {| status := 422; statusText := lit "Unprocessable Entity";
     hasBody := true; bodyUsed := false;
     asJson := Normal (JObj [(lit "detail",
                              JObj [(lit "toString", JNum (lit "1"))])]);
     asText := Normal (lit "{'detail':{'toString':1}}") |}.

Definition gatewayPage : Response :=
  {| status := 502; statusText := lit "Bad Gateway";
     hasBody := true; bodyUsed := false;
     asJson := Throw (SyntaxError (lit "Unexpected token <"));
     asText := Normal (lit "<html>  <h1>502 Bad Gateway</h1>  </html>") |}.

End Scenario.

(* ------------------------------------------------------------------------- *)
(** ** Strings *)

Section StringFacts.

Lemma jseqb_eq (a b : jsstring) : jseqb a b = true <-> a = b.
Proof.
  revert b; induction a as [|x a IH]; intros [|y b]; simpl;
    try (split; [discriminate | discriminate]); try tauto.
  rewrite andb_true_iff, N.eqb_eq, IH.
  split; [intros [-> ->]; reflexivity | intros E; inversion E; auto].
Qed.

Lemma jseqb_refl (a : jsstring) : jseqb a a = true.
Proof. apply jseqb_eq; reflexivity. Qed.

Lemma is_empty_true (s : jsstring) : is_empty s = true <-> s = [].
Proof. destruct s; simpl; split; congruence. Qed.

Lemma is_empty_app_unit (a : jsstring) (c : code_unit) :
  is_empty (a ++ [c]) = false.
Proof. destruct a; reflexivity. Qed.

Variable p : code_unit -> bool.

Lemma dropWhileEnd_all (s : jsstring) :
  forallb p s = true -> dropWhileEnd p s = [].
Proof.
  induction s as [|c r IH]; simpl; [reflexivity|].
  rewrite andb_true_iff; intros [Hc Hr].
  rewrite (IH Hr), Hc; reflexivity.
Qed.

Lemma dropWhileEnd_app (a b : jsstring) :
  dropWhileEnd p (a ++ b) =
  if is_empty (dropWhileEnd p b) then dropWhileEnd p a
  else a ++ dropWhileEnd p b.
Proof.
  induction a as [|c a IH]; simpl.
  - destruct (dropWhileEnd p b); reflexivity.
  - rewrite IH.
    destruct (is_empty (dropWhileEnd p b)) eqn:E; [reflexivity|].
    destruct a; simpl.
    + rewrite E; reflexivity.
    + reflexivity.
Qed.

Lemma dropWhileEnd_unit (c : code_unit) :
  p c = false -> dropWhileEnd p [c] = [c].
Proof. intros H; simpl; rewrite H; reflexivity. Qed.

(** A string that ends with a code unit outside [p] loses nothing. *)
Lemma dropWhileEnd_keeps (a : jsstring) (c : code_unit) :
  p c = false -> dropWhileEnd p (a ++ [c]) = a ++ [c].
Proof.
  intros H; rewrite dropWhileEnd_app, (dropWhileEnd_unit _ H); reflexivity.
Qed.

Lemma dropWhileEnd_app_all (a sl : jsstring) :
  forallb p sl = true -> dropWhileEnd p (a ++ sl) = dropWhileEnd p a.
Proof.
  intros H; rewrite dropWhileEnd_app, (dropWhileEnd_all _ H); reflexivity.
Qed.

(** What [dropWhileEnd] removes is a run of code units in [p] ... *)
Lemma dropWhileEnd_split (s : jsstring) :
  exists sl, s = dropWhileEnd p s ++ sl /\ forallb p sl = true.
Proof.
  induction s as [|c r [sl [E H]]]; simpl.
  - exists []; auto.
  - destruct (dropWhileEnd p r) as [|d r'] eqn:D; simpl.
    + destruct (p c) eqn:Hc.
      * exists (c :: sl); simpl in *; rewrite Hc, H, E; auto.
      * exists sl; simpl in *; rewrite E; auto.
    + exists sl; rewrite E at 1; auto.
Qed.

(** ... and what it leaves does not end with one. *)
Lemma dropWhileEnd_end (s a : jsstring) (c : code_unit) :
  dropWhileEnd p s = a ++ [c] -> p c = false.
Proof.
  revert a; induction s as [|d r IH]; simpl; intros a E.
  - destruct a; discriminate.
  - destruct (dropWhileEnd p r) as [|e r'] eqn:D; simpl in E.
    + destruct (p d) eqn:Hd; [destruct a; discriminate|].
      destruct a as [|x [|y a]]; inversion E; subst; assumption.
    + destruct a as [|x a]; [discriminate|].
      inversion E; subst. eapply IH; eauto.
Qed.

End StringFacts.

Lemma toLowerCase_app (a b : jsstring) :
  toLowerCase (a ++ b) = toLowerCase a ++ toLowerCase b.
Proof. apply map_app. Qed.

Lemma toLowerCase_length (a : jsstring) : length (toLowerCase a) = length a.
Proof. apply length_map. Qed.

Lemma endsWith_app (a b : jsstring) : endsWith (a ++ b) b = true.
Proof.
  unfold endsWith. rewrite length_app.
  destruct (Nat.ltb_spec (length a + length b) (length b)); [lia|].
  replace (length a + length b - length b) with (length a + 0) by lia.
  rewrite skipn_app, Nat.add_0_r, skipn_all.
  replace (length a - length a) with 0 by lia.
  simpl. apply jseqb_refl.
Qed.

Lemma endsWith_split (s x : jsstring) :
  endsWith s x = true ->
  s = firstn (length s - length x) s ++ x.
Proof.
  unfold endsWith.
  destruct (Nat.ltb_spec (length s) (length x)); [discriminate|].
  intros E; apply jseqb_eq in E.
  rewrite <- (firstn_skipn (length s - length x) s) at 1.
  rewrite E; reflexivity.
Qed.

Lemma slice0_minus4 (s : jsstring) : slice0 (-4) s = firstn (length s - 4) s.
Proof.
  unfold slice0; simpl. f_equal. lia.
Qed.

Lemma slice0_length (n : nat) (s : jsstring) :
  length (slice0 (Z.of_nat n) s) <= n.
Proof.
  unfold slice0. destruct (Z.ltb_spec (Z.of_nat n) 0); [lia|].
  rewrite Nat2Z.id, length_firstn. lia.
Qed.

(* ------------------------------------------------------------------------- *)
(** ** The base URL *)

Lemma toLowerCase_skipn (n : nat) (s : jsstring) :
  toLowerCase (skipn n s) = skipn n (toLowerCase s).
Proof. unfold toLowerCase; symmetry; apply skipn_map. Qed.

(** A capitalisation of ["/api"] has four code units, the last one a letter. *)
Lemma api_suffix_shape (x : jsstring) :
  toLowerCase x = lit "/api" ->
  length x = 4 /\ exists a c, x = a ++ [c] /\ isSlash c = false.
Proof.
  intros E.
  destruct x as [|c1 [|c2 [|c3 [|c4 [|c5 x]]]]]; try discriminate E.
  split; [reflexivity|].
  exists [c1; c2; c3], c4; split; [reflexivity|].
  injection E as _ _ _ E4.
  unfold isSlash, slash. apply N.eqb_neq; intros ->. discriminate E4.
Qed.

Lemma no_trailing_slash_kept (r : jsstring) :
  (forall y, r <> y ++ [slash]) -> dropWhileEnd isSlash r = r.
Proof.
  intros H. destruct r as [|c r'] using rev_ind; [reflexivity|].
  apply dropWhileEnd_keeps.
  unfold isSlash. apply N.eqb_neq; intros ->. exact (H r' eq_refl).
Qed.

(** The code gives the resolution of the specification ... *)
Lemma normalizeBaseUrl_stripped (s r : jsstring) :
  strippedTo (trim s) r ->
  normalizeBaseUrl (Some s) = if is_empty r then lit "/api" else r.
Proof.
  intros H. unfold normalizeBaseUrl.
  destruct (is_empty s) eqn:Es.
  - apply is_empty_true in Es; subst s.
    destruct H as [sl E _ _ _ | x sl E _ _];
      cbn in E; symmetry in E; apply app_eq_nil in E;
      destruct E as [-> _]; reflexivity.
  - unfold stripTrailingSlashes.
    destruct H as [sl E Hsl Hend Hapi | x sl E Hx Hsl]; rewrite E.
    + rewrite dropWhileEnd_app_all, no_trailing_slash_kept by assumption.
      destruct (endsWith (toLowerCase r) (lit "/api")) eqn:Ew; [|reflexivity].
      exfalso.
      apply (Hapi (firstn (length r - 4) r) (skipn (length r - 4) r)).
      * symmetry; apply firstn_skipn.
      * unfold endsWith in Ew.
        rewrite toLowerCase_length in Ew.
        destruct (length r <? length (lit "/api")); [discriminate|].
        apply jseqb_eq in Ew. rewrite toLowerCase_skipn. exact Ew.
    + destruct (api_suffix_shape _ Hx) as [Hlen [a [c [Ex Hc]]]].
      assert (Hd : dropWhileEnd isSlash (r ++ x ++ sl) = r ++ x).
      { rewrite app_assoc, dropWhileEnd_app_all by assumption.
        rewrite Ex, app_assoc. apply dropWhileEnd_keeps; assumption. }
      rewrite Hd, toLowerCase_app, Hx, endsWith_app.
      rewrite slice0_minus4, length_app, Hlen.
      replace (length r + 4 - 4) with (length r + 0) by lia.
      rewrite firstn_app_2; simpl. rewrite app_nil_r; reflexivity.
Qed.

(** ... and every value has one. *)
Lemma trim_strippedTo (t : jsstring) : exists r, strippedTo t r.
Proof.
  destruct (dropWhileEnd_split isSlash t) as [sl [E Hsl]].
  set (u := dropWhileEnd isSlash t) in *.
  destruct (endsWith (toLowerCase u) (lit "/api")) eqn:Ew.
  - exists (firstn (length u - 4) u).
    apply stripped_api with (x := skipn (length u - 4) u) (sl := sl).
    + rewrite app_assoc, firstn_skipn. exact E.
    + unfold endsWith in Ew. rewrite toLowerCase_length in Ew.
      destruct (length u <? length (lit "/api")); [discriminate|].
      apply jseqb_eq in Ew. rewrite toLowerCase_skipn. exact Ew.
    + exact Hsl.
  - exists u. apply stripped_plain with (sl := sl); auto.
    + intros y Ey.
      assert (H : isSlash slash = false)
        by (eapply dropWhileEnd_end; exact Ey).
      discriminate H.
    + intros y x Ey Hx.
      rewrite Ey, toLowerCase_app, Hx, endsWith_app in Ew. discriminate.
Qed.

(** C3. When the environment gives no backend URL the base is ["/api"]; a
    value that is set loses the white space around it, its trailing slashes
    and then one trailing ["/api"], and what is left is the base (["/api"]
    again if nothing is left); ["https://host:3001/api/"] resolves to
    ["https://host:3001"]. *)
Theorem normalizeBaseUrl_resolution :
  normalizeBaseUrl None = lit "/api"
  /\ (forall s : jsstring, exists r : jsstring,
        strippedTo (trim s) r
        /\ normalizeBaseUrl (Some s) = if is_empty r then lit "/api" else r)
  /\ normalizeBaseUrl (Some (lit "https://host:3001/api/"))
     = lit "https://host:3001".
Proof.
  split; [reflexivity|]. split; [|vm_compute; reflexivity].
  intros s. destruct (trim_strippedTo (trim s)) as [r Hr].
  exists r. split; [exact Hr|]. apply normalizeBaseUrl_stripped; exact Hr.
Qed.

Lemma normalizeBaseUrl_not_empty (url : option jsstring) :
  normalizeBaseUrl url <> [].
Proof.
  unfold normalizeBaseUrl. destruct url as [s|]; [|discriminate].
  destruct (is_empty s); [discriminate|].
  match goal with |- (if is_empty ?u then _ else _) <> _ =>
    destruct u eqn:E; simpl; discriminate end.
Qed.

(** C10. [normalizeBaseUrl] never returns the empty string; a value of which
    nothing is left once the trailing slashes and one trailing ["/api"] are
    removed resolves to ["/api"] (so do ["/api"], ["/api/"] and ["/API"]);
    and the suffix is recognised in any capitalisation: whenever the trimmed
    value is [r], a capitalisation [x] of ["/api"] and slashes, with [r] not
    empty, the result is [r] (["https://host/API"] gives ["https://host"]). *)
Theorem normalizeBaseUrl_never_empty :
  (forall url : option jsstring, normalizeBaseUrl url <> [])
  /\ (forall s : jsstring,
        strippedTo (trim s) [] -> normalizeBaseUrl (Some s) = lit "/api")
  /\ (normalizeBaseUrl (Some (lit "/api")) = lit "/api"
      /\ normalizeBaseUrl (Some (lit "/api/")) = lit "/api"
      /\ normalizeBaseUrl (Some (lit "/API")) = lit "/api")
  /\ (forall s r x sl : jsstring,
        trim s = r ++ x ++ sl ->
        toLowerCase x = lit "/api" ->
        forallb isSlash sl = true ->
        r <> [] ->
        normalizeBaseUrl (Some s) = r)
  /\ normalizeBaseUrl (Some (lit "https://host/API")) = lit "https://host".
Proof.
  split; [exact normalizeBaseUrl_not_empty|].
  split; [intros s H; exact (normalizeBaseUrl_stripped s [] H)|].
  split; [vm_compute; auto|].
  split; [|vm_compute; reflexivity].
  intros s r x sl E Hx Hsl Hr.
  rewrite (normalizeBaseUrl_stripped s r (stripped_api _ _ x sl E Hx Hsl)).
  destruct r; [contradiction|reflexivity].
Qed.

Lemma normalizeBaseUrl_never_empty_witness :
  normalizeBaseUrl (Some (lit " https://host/Api// ")) = lit "https://host".
Proof.
  apply (proj1 (proj2 (proj2 (proj2 normalizeBaseUrl_never_empty)))
           (lit " https://host/Api// ") (lit "https://host") (lit "/Api")
           (lit "//")).
  - vm_compute; reflexivity.
  - vm_compute; reflexivity.
  - vm_compute; reflexivity.
  - discriminate.
Defined.

(* ------------------------------------------------------------------------- *)
(** ** The error of a response that is not ok *)

Lemma collapseFrom_collapsed (b : bool) (s : jsstring) :
  collapsedFrom b (collapseFrom b s) = true.
Proof.
  revert b; induction s as [|c r IH]; intros b; simpl; [reflexivity|].
  destruct (isWhiteSpace c) eqn:Hc.
  - destruct b; simpl; [apply IH|]. apply IH.
  - simpl. rewrite Hc. apply IH.
Qed.

Lemma collapsedFrom_firstn (n : nat) (b : bool) (s : jsstring) :
  collapsedFrom b s = true -> collapsedFrom b (firstn n s) = true.
Proof.
  revert b s; induction n as [|n IH]; intros b [|c r]; simpl; auto.
  destruct (isWhiteSpace c).
  - rewrite !andb_true_iff. intros [H1 H2]; split; auto.
  - apply IH.
Qed.

Lemma snippetOf_firstn (t : jsstring) :
  snippetOf t = firstn 160 (collapseWhiteSpace t).
Proof. unfold snippetOf. destruct t; reflexivity. Qed.

Lemma snippetOf_length (t : jsstring) : length (snippetOf t) <= 160.
Proof. rewrite snippetOf_firstn, length_firstn. lia. Qed.

Lemma snippetOf_collapsed (t : jsstring) : isCollapsed (snippetOf t) = true.
Proof.
  rewrite snippetOf_firstn. apply collapsedFrom_firstn.
  apply collapseFrom_collapsed.
Qed.

Lemma tryParseJson_status (res : Response) :
  status (snd (tryParseJson res)) = status res
  /\ statusText (snd (tryParseJson res)) = statusText res.
Proof.
  unfold tryParseJson, json.
  destruct (hasBody res && bodyUsed res); [auto|].
  destruct (asJson res); auto.
Qed.

(** The three forms of the error, as the code chooses between them: the
    field of the parsed body when there is one that is truthy, else the
    status line with a snippet of the text of the body when the text can be
    read, else the status line alone. The first form throws when the field
    has no string form. *)
Lemma buildHttpError_tiers (res : Response) (defaultMsg : jsstring) :
  let data := fst (tryParseJson res) in
  let res' := snd (tryParseJson res) in
  if truthy data && truthy (errorField data) then
    match ToString (errorField data) with
    | Some shown =>
        buildHttpError res defaultMsg
        = Normal (Error (defaultMsg ++ lit ": " ++ shown))
    | None => buildHttpError res defaultMsg = Throw cannotConvert
    end
  else
    match fst (text res') with
    | Normal t =>
        exists snippet : jsstring,
          buildHttpError res defaultMsg
          = Normal (Error (defaultMsg ++ lit ": HTTP " ++ decimal (status res)
                           ++ lit " " ++ statusText res
                           ++ lit " " ++ emDash ++ lit " " ++ snippet))
          /\ snippet = firstn 160 (collapseWhiteSpace t)
          /\ length snippet <= 160
          /\ isCollapsed snippet = true
    | Throw _ =>
        buildHttpError res defaultMsg
        = Normal (Error (defaultMsg ++ lit ": HTTP " ++ decimal (status res)
                         ++ lit " " ++ statusText res))
    end.
Proof.
  cbv zeta.
  destruct (tryParseJson_status res) as [Hs Ht].
  set (res' := snd (tryParseJson res)) in *.
  set (data := fst (tryParseJson res)) in *.
  assert (Hfall : forall t' : jsstring,
    textFallback res' defaultMsg
    = match fst (text res') with
      | Normal t =>
          Error (defaultMsg ++ lit ": HTTP " ++ decimal (status res)
                 ++ lit " " ++ statusText res
                 ++ lit " " ++ emDash ++ lit " " ++ snippetOf t)
      | Throw _ =>
          Error (defaultMsg ++ lit ": HTTP " ++ decimal (status res)
                 ++ lit " " ++ statusText res)
      end).
  { intros _. unfold textFallback, statusLine. rewrite Hs, Ht.
    destruct (text res') as [[t|e] r]; cbn [fst]; [|reflexivity].
    rewrite <- !app_assoc. reflexivity. }
  specialize (Hfall []).
  unfold buildHttpError. subst data res'.
  destruct (tryParseJson res) as [data res']; cbn [fst snd andb] in *.
  destruct (truthy data); cbn [andb].
  - destruct (truthy (errorField data)); cbn [andb].
    + destruct (ToString (errorField data)); reflexivity.
    + rewrite Hfall. destruct (fst (text res')); [|reflexivity].
      eexists; split; [reflexivity|].
      split; [apply snippetOf_firstn|].
      split; [apply snippetOf_length | apply snippetOf_collapsed].
  - rewrite Hfall. destruct (fst (text res')); [|reflexivity].
    eexists; split; [reflexivity|].
    split; [apply snippetOf_firstn|].
    split; [apply snippetOf_length | apply snippetOf_collapsed].
Qed.

(** A response with a body has been read by [res.json()] when the text is
    asked for: the snippet is never produced for it. *)
Lemma buildHttpError_body_read (res : Response) (defaultMsg : jsstring) :
  hasBody res = true ->
  fst (text (snd (tryParseJson res))) = Throw alreadyRead.
Proof.
  intros Hb. unfold tryParseJson, json. rewrite Hb; simpl.
  destruct (bodyUsed res) eqn:Hu.
  - unfold text; simpl. rewrite Hb, Hu. reflexivity.
  - destruct (asJson res); unfold text, consumed; simpl; rewrite Hb;
      reflexivity.
Qed.

(** C2. [buildHttpError] throws while it builds the error of a response whose
    body is JSON with a [detail] that has no string form (an object with a
    [toString] entry): the [TypeError] of the template is thrown in place of
    the error of the operation. And for the HTML page of a gateway the text
    cannot be read any more, [res.json()] having consumed the body: the
    message is the status line without a snippet. *)
Theorem buildHttpError_at_odd_bodies :
  buildHttpError Scenario.oddDetail (lit "Failed to save patient")
  = Throw cannotConvert
  /\ buildHttpError Scenario.gatewayPage (lit "Failed to fetch patients")
     = Normal (Error (lit "Failed to fetch patients: HTTP 502 Bad Gateway")).
Proof. split; vm_compute; reflexivity. Qed.

(* ------------------------------------------------------------------------- *)
(** ** The send guard *)

Lemma dropWhile_all (p : code_unit -> bool) (s : jsstring) :
  forallb p s = true -> dropWhile p s = [].
Proof.
  induction s as [|c r IH]; simpl; [reflexivity|].
  rewrite andb_true_iff; intros [Hc Hr]. rewrite Hc; auto.
Qed.

Lemma forallb_dropWhile (p : code_unit -> bool) (s : jsstring) :
  forallb p (dropWhile p s) = true -> forallb p s = true.
Proof.
  induction s as [|c r IH]; simpl; [reflexivity|].
  destruct (p c) eqn:Hc; simpl.
  - exact IH.
  - rewrite Hc; discriminate.
Qed.

(** Nothing is left of a string by [trim] exactly when it is white space
    only. *)
Lemma trim_nil_iff (s : jsstring) :
  trim s = [] <-> forallb isWhiteSpace s = true.
Proof.
  unfold trim; split; intros H.
  - apply forallb_dropWhile.
    destruct (dropWhileEnd_split isWhiteSpace (dropWhile isWhiteSpace s))
      as [sl [E Hsl]].
    rewrite H in E; simpl in E. rewrite E; exact Hsl.
  - rewrite (dropWhile_all _ _ H); reflexivity.
Qed.

(** C4. [canSend] holds exactly when the trimmed input is not empty, there is
    an active patient and no send is in flight; it fails as soon as the input
    is empty or white space only, or there is no active patient, or a send
    is in flight. *)
Theorem canSend_iff (st : ViewState) :
  (canSend st = true <->
     trim (userInput st) <> []
     /\ truthy (activePatient st) = true
     /\ loading st = false)
  /\ (canSend st = false <->
        forallb isWhiteSpace (userInput st) = true
        \/ truthy (activePatient st) = false
        \/ loading st = true)
  /\ (activePatient st = JNull -> canSend st = false).
Proof.
  unfold canSend.
  assert (Hlen : (0 <? length (trim (userInput st))) = true
                 <-> trim (userInput st) <> []).
  { destruct (trim (userInput st)); simpl; split;
      congruence || discriminate || auto. }
  split; [|split].
  - rewrite !andb_true_iff, negb_true_iff, Hlen. tauto.
  - rewrite <- trim_nil_iff.
    rewrite !andb_false_iff, negb_false_iff.
    destruct (trim (userInput st)); simpl; split; intros H.
    + auto.
    + auto.
    + destruct H as [[H|H]|H]; auto; discriminate.
    + destruct H as [H|[H|H]]; auto; discriminate.
  - intros ->. simpl. rewrite andb_false_r. reflexivity.
Qed.

Lemma canSend_iff_witness :
  canSend (view Scenario.sendingHello) = false.
Proof.
  apply (proj1 (proj2 (canSend_iff (view Scenario.sendingHello)))).
  right; right. reflexivity.
Defined.

(* ------------------------------------------------------------------------- *)
(** ** Sending a message *)

Ltac unfold_handlers :=
  unfold handleSend_begin, handleSend_resume, loadPatients_resume,
    historyEffect_begin, historyEffect_resume, handleSelectPatient,
    handleCreatePatient_begin, handleCreatePatient_resume,
    try_finally, try_catch, bind, await, ret, getView,
    setPatients, setActivePatient, setMessages, setUserInput, setLoading,
    setSavingPatient, setError, console_error, update.

Lemma handleSend_begin_enabled (clk : Clock) (w : World) :
  canSend (view w) = true ->
  handleSend_begin clk w =
  (Normal (Some {| patientId := get (activePatient (view w)) (lit "id");
                   message := trim (userInput (view w)) |}),
   {| view := {| patients := patients (view w);
                 activePatient := activePatient (view w);
                 messages := messages (view w)
                             ++ [userMessage clk (userInput (view w))];
                 userInput := [];
                 loading := true;
                 savingPatient := savingPatient (view w);
                 error := [] |};
      console := console w |}).
Proof.
  intros H. unfold_handlers. rewrite H. reflexivity.
Qed.

Lemma handleSend_begin_disabled (clk : Clock) (w : World) :
  canSend (view w) = false -> handleSend_begin clk w = (Normal None, w).
Proof.
  intros H. unfold_handlers. rewrite H. reflexivity.
Qed.

Lemma handleSend_resume_resolved (clk1 clk2 : Clock) (resp : JsVal)
    (w : World) :
  handleSend_resume clk1 clk2 (Normal resp) w =
  (Normal tt,
   {| view := {| patients := patients (view w);
                 activePatient := activePatient (view w);
                 messages :=
                   messages (view w)
                   ++ [or_else (get resp (lit "agent1")) (agent1Fallback clk1);
                       or_else (get resp (lit "agent2")) (agent2Fallback clk2)];
                 userInput := userInput (view w);
                 loading := false;
                 savingPatient := savingPatient (view w);
                 error := error (view w) |};
      console := console w |}).
Proof. reflexivity. Qed.

Lemma handleSend_resume_rejected (clk1 clk2 : Clock) (e : Exn) (w : World) :
  handleSend_resume clk1 clk2 (Throw e) w =
  (Normal tt,
   {| view := {| patients := patients (view w);
                 activePatient := activePatient (view w);
                 messages := messages (view w);
                 userInput := userInput (view w);
                 loading := false;
                 savingPatient := savingPatient (view w);
                 error := lit "Unable to send message. Please try again." |};
      console := console w ++ [e] |}).
Proof. reflexivity. Qed.

(** The value of a property does not depend on where the property stands in
    the object. *)
Lemma lookup_Permutation (k : jsstring) (props props' : list (jsstring * JsVal)) :
  NoDup (map fst props) ->
  Permutation props props' ->
  lookup k props = lookup k props'.
Proof.
  intros Hnd Hp; induction Hp as [| [k1 v1] l l' Hp IH
                                  | [k1 v1] [k2 v2] l
                                  | l l' l'' Hp1 IH1 Hp2 IH2 ]; simpl.
  - reflexivity.
  - inversion Hnd; subst. rewrite IH by assumption. reflexivity.
  - destruct (jseqb k k2) eqn:E2, (jseqb k k1) eqn:E1; try reflexivity.
    apply jseqb_eq in E1, E2; subst.
    simpl in Hnd. inversion Hnd as [|? ? Hin _]; subst.
    exfalso; apply Hin; left; reflexivity.
  - rewrite IH1 by assumption. apply IH2.
    apply Permutation_NoDup with (l := map fst l); [|assumption].
    apply Permutation_map; assumption.
Qed.

(** C5. A send that is allowed appends the user message (agent ["user"], the
    trimmed input as content) in the step that issues the request; when the
    request resolves, two messages are appended after whatever the list then
    holds, the one for [agent1] first and the one for [agent2] second, and
    the order of the fields in the payload makes no difference. *)
Theorem handleSend_appends_in_order
    (clk clk1 clk2 : Clock) (w : World) (resp : JsVal) :
  canSend (view w) = true ->
  let began := handleSend_begin clk w in
  let userMsg := userMessage clk (userInput (view w)) in
  fst began
  = Normal (Some {| patientId := get (activePatient (view w)) (lit "id");
                    message := trim (userInput (view w)) |})
  /\ messages (view (snd began)) = messages (view w) ++ [userMsg]
  /\ get userMsg (lit "agent") = JStr (lit "user")
  /\ get userMsg (lit "content") = JStr (trim (userInput (view w)))
  /\ (forall w1 : World,
        let done := handleSend_resume clk1 clk2 (Normal resp) w1 in
        fst done = Normal tt
        /\ messages (view (snd done))
           = messages (view w1)
             ++ [or_else (get resp (lit "agent1")) (agent1Fallback clk1);
                 or_else (get resp (lit "agent2")) (agent2Fallback clk2)])
  /\ (forall (props props' : list (jsstring * JsVal)) (w1 : World),
        resp = JObj props ->
        NoDup (map fst props) ->
        Permutation props props' ->
        handleSend_resume clk1 clk2 (Normal (JObj props')) w1
        = handleSend_resume clk1 clk2 (Normal resp) w1).
Proof.
  intros H began userMsg. subst began.
  rewrite (handleSend_begin_enabled clk w H). cbn [fst snd view messages].
  repeat split.
  - intros props props' w1 -> Hnd Hp.
    rewrite !handleSend_resume_resolved. cbn [get].
    rewrite <- (lookup_Permutation (lit "agent1") props props' Hnd Hp).
    rewrite <- (lookup_Permutation (lit "agent2") props props' Hnd Hp).
    reflexivity.
Qed.

Lemma handleSend_appends_in_order_witness :
  canSend (view Scenario.typedHello) = true
  /\ messages (view (snd (handleSend_begin Scenario.noon Scenario.typedHello)))
     = [userMessage Scenario.noon (lit " Hello ")]
  /\ messages (view (snd (handleSend_resume Scenario.noon Scenario.noon
                            (Normal Scenario.secondFirst)
                            (snd (handleSend_begin Scenario.noon
                                    Scenario.typedHello)))))
     = [userMessage Scenario.noon (lit " Hello ");
        Scenario.intakeReply; Scenario.adviceReply].
Proof.
  pose proof (handleSend_appends_in_order Scenario.noon Scenario.noon
                Scenario.noon Scenario.typedHello Scenario.secondFirst
                eq_refl) as H.
  split; [reflexivity|]. split.
  - exact (proj1 (proj2 H)).
  - destruct H as (_ & Hm & _ & _ & Hdone & _).
    destruct (Hdone (snd (handleSend_begin Scenario.noon Scenario.typedHello)))
      as [_ Hd].
    rewrite Hd, Hm. reflexivity.
Defined.

(** C6. When the call resolves with [{}], the two fallback messages are
    appended, in the order [agent1], [agent2], each with the default content
    of its agent; when one of the two fields is there and the other is not,
    the fallback stands in for the missing one only; and after the send that
    issued the call the list ends with the user message and the two
    fallbacks. *)
Theorem handleSend_fallbacks (clk clk1 clk2 : Clock) (w : World) :
  messages (view (snd (handleSend_resume clk1 clk2 (Normal (JObj [])) w)))
  = messages (view w) ++ [agent1Fallback clk1; agent2Fallback clk2]
  /\ (get (agent1Fallback clk1) (lit "agent") = JStr (lit "agent1")
      /\ get (agent1Fallback clk1) (lit "content") = JStr agent1Default
      /\ get (agent2Fallback clk2) (lit "agent") = JStr (lit "agent2")
      /\ get (agent2Fallback clk2) (lit "content") = JStr agent2Default
      /\ agent1Default <> agent2Default)
  /\ (forall resp : JsVal,
        truthy (get resp (lit "agent1")) = false ->
        truthy (get resp (lit "agent2")) = true ->
        messages (view (snd (handleSend_resume clk1 clk2 (Normal resp) w)))
        = messages (view w)
          ++ [agent1Fallback clk1; get resp (lit "agent2")])
  /\ (forall resp : JsVal,
        truthy (get resp (lit "agent1")) = true ->
        truthy (get resp (lit "agent2")) = false ->
        messages (view (snd (handleSend_resume clk1 clk2 (Normal resp) w)))
        = messages (view w)
          ++ [get resp (lit "agent1"); agent2Fallback clk2])
  /\ (canSend (view w) = true ->
      messages (view (snd (handleSend_resume clk1 clk2 (Normal (JObj []))
                             (snd (handleSend_begin clk w)))))
      = messages (view w)
        ++ [userMessage clk (userInput (view w));
            agent1Fallback clk1; agent2Fallback clk2]).
Proof.
  split; [reflexivity|].
  split; [repeat split; vm_compute; discriminate|].
  split; [|split].
  - intros resp H1 H2. rewrite handleSend_resume_resolved.
    unfold or_else. rewrite H1, H2. reflexivity.
  - intros resp H1 H2. rewrite handleSend_resume_resolved.
    unfold or_else. rewrite H1, H2. reflexivity.
  - intros H. rewrite (handleSend_begin_enabled clk w H).
    rewrite handleSend_resume_resolved. cbn [snd view messages].
    rewrite <- app_assoc. reflexivity.
Qed.

Lemma handleSend_fallbacks_witness :
  messages (view (snd (handleSend_resume Scenario.noon Scenario.noon
                         (Normal Scenario.onlyAdvice) Scenario.typedHello)))
  = [agent1Fallback Scenario.noon; Scenario.adviceReply]
  /\ messages (view (snd (handleSend_resume Scenario.noon Scenario.noon
                            (Normal (JObj []))
                            (snd (handleSend_begin Scenario.noon
                                    Scenario.typedHello)))))
     = [userMessage Scenario.noon (lit " Hello ");
        agent1Fallback Scenario.noon; agent2Fallback Scenario.noon].
Proof.
  pose proof (handleSend_fallbacks Scenario.noon Scenario.noon Scenario.noon
                Scenario.typedHello) as (_ & _ & Hone & _ & Hall).
  split.
  - exact (Hone Scenario.onlyAdvice eq_refl eq_refl).
  - exact (Hall eq_refl).
Defined.

(** Every response that is not ok, and every failure of [fetch], makes the
    operation reject. *)
Lemma respond_rejects (defaultMsg : jsstring) (fetched : completion Response) :
  match fetched with
  | Normal res => ok res = false
  | Throw _ => True
  end ->
  exists e : Exn, respond defaultMsg fetched = Throw e.
Proof.
  destruct fetched as [res|e]; simpl; intros H; [|eauto].
  rewrite H. destruct (buildHttpError res defaultMsg); eauto.
Qed.

(** C7. When the call fails, whatever the failure, the handler ends
    normally, the error is the send-failure message, the message list is
    left as it is (so the user message that the send appended stays), and
    [loading] is false; [loading] is false after a call that resolved as
    well, and the handler ends normally then too. *)
Theorem handleSend_failure (clk clk1 clk2 : Clock) (e : Exn) (w : World) :
  let failed := handleSend_resume clk1 clk2 (Throw e) w in
  fst failed = Normal tt
  /\ error (view (snd failed))
     = lit "Unable to send message. Please try again."
  /\ messages (view (snd failed)) = messages (view w)
  /\ loading (view (snd failed)) = false
  /\ console (snd failed) = console w ++ [e]
  /\ (forall o : completion JsVal,
        fst (handleSend_resume clk1 clk2 o w) = Normal tt
        /\ loading (view (snd (handleSend_resume clk1 clk2 o w))) = false)
  /\ (canSend (view w) = true ->
      messages (view (snd (handleSend_resume clk1 clk2 (Throw e)
                             (snd (handleSend_begin clk w)))))
      = messages (view w) ++ [userMessage clk (userInput (view w))]).
Proof.
  cbv zeta. rewrite handleSend_resume_rejected. cbn [fst snd view].
  repeat split.
  - destruct o; reflexivity.
  - destruct o; reflexivity.
  - intros H. rewrite (handleSend_begin_enabled clk w H). reflexivity.
Qed.

Lemma handleSend_failure_witness :
  messages (view (snd (handleSend_resume Scenario.noon Scenario.noon
                         (Throw Scenario.networkDown)
                         (snd (handleSend_begin Scenario.noon
                                 Scenario.typedHello)))))
  = [userMessage Scenario.noon (lit " Hello ")].
Proof.
  pose proof (handleSend_failure Scenario.noon Scenario.noon Scenario.noon
                Scenario.networkDown Scenario.typedHello)
    as (_ & _ & _ & _ & _ & _ & H).
  exact (H eq_refl).
Defined.

(* ------------------------------------------------------------------------- *)
(** ** Loading the patients and the history *)

Lemma loadPatients_resume_rejected (e : Exn) (w : World) :
  loadPatients_resume (Throw e) w =
  (Normal tt,
   {| view := {| patients := patients (view w);
                 activePatient := activePatient (view w);
                 messages := messages (view w);
                 userInput := userInput (view w);
                 loading := loading (view w);
                 savingPatient := savingPatient (view w);
                 error := lit "Unable to load patients." |};
      console := console w ++ [e] |}).
Proof. reflexivity. Qed.

(** C8. When [fetchPatients] rejects at startup the list of patients is
    still empty, the error is the message of the failed load and the active
    patient is still [null] (the rejection changes neither the list nor the
    active patient of any state, and no history is asked for); when it
    resolves with a list that is not empty, the list is stored and its
    first patient becomes the active one. *)
Theorem loadPatients_outcomes :
  (forall e : Exn,
     let failed := loadPatients_resume (Throw e) initialWorld in
     fst failed = Normal tt
     /\ patients (view (snd failed)) = []
     /\ activePatient (view (snd failed)) = JNull
     /\ error (view (snd failed)) = lit "Unable to load patients.")
  /\ (forall (e : Exn) (w : World),
        patients (view (snd (loadPatients_resume (Throw e) w)))
        = patients (view w)
        /\ activePatient (view (snd (loadPatients_resume (Throw e) w)))
           = activePatient (view w))
  /\ (forall (e : Exn),
        exists c : Config,
          run [Mount; PatientsSettled (Throw e)] initial = Some c
          /\ patients (view (world c)) = []
          /\ activePatient (view (world c)) = JNull
          /\ error (view (world c)) = lit "Unable to load patients."
          /\ inFlight c = [])
  /\ (forall (p : JsVal) (rest : list JsVal) (w : World),
        let loaded := loadPatients_resume (Normal (Some (p :: rest))) w in
        fst loaded = Normal tt
        /\ patients (view (snd loaded)) = p :: rest
        /\ activePatient (view (snd loaded)) = p
        /\ error (view (snd loaded)) = error (view w)).
Proof.
  split; [intros e; cbv zeta; rewrite loadPatients_resume_rejected;
          repeat split|].
  split; [intros e w; rewrite loadPatients_resume_rejected; split;
          reflexivity|].
  split.
  - intros e. eexists. split; [reflexivity|]. repeat split.
  - intros p rest w. repeat split.
Qed.

Lemma historyEffect_begin_none (w : World) :
  truthy (activePatient (view w))
  && truthy (get (activePatient (view w)) (lit "id")) = false ->
  historyEffect_begin w =
  (Normal None,
   {| view := {| patients := patients (view w);
                 activePatient := activePatient (view w);
                 messages := [];
                 userInput := userInput (view w);
                 loading := loading (view w);
                 savingPatient := savingPatient (view w);
                 error := error (view w) |};
      console := console w |}).
Proof.
  intros H. unfold_handlers. rewrite <- negb_andb, H. reflexivity.
Qed.

Lemma historyEffect_begin_some (w : World) :
  truthy (activePatient (view w))
  && truthy (get (activePatient (view w)) (lit "id")) = true ->
  historyEffect_begin w
  = (Normal (Some (get (activePatient (view w)) (lit "id"))), w).
Proof.
  intros H. unfold_handlers. rewrite <- negb_andb, H. reflexivity.
Qed.

(** Comparing a value with itself. *)
Fixpoint JsVal_eqb_refl (v : JsVal) : JsVal_eqb v v = true.
Proof.
  destruct v as [| |b|t|s|elems|props]; simpl.
  - reflexivity.
  - reflexivity.
  - destruct b; reflexivity.
  - apply jseqb_refl.
  - apply jseqb_refl.
  - induction elems as [|x l IH]; [reflexivity|].
    rewrite (JsVal_eqb_refl x), IH. reflexivity.
  - induction props as [|[k x] l IH]; [reflexivity|].
    rewrite jseqb_refl, (JsVal_eqb_refl x), IH. reflexivity.
Qed.

Lemma historyEffect_resume_resolved (h : HistoryPayload) (w : World) :
  historyEffect_resume (Normal h) w =
  (Normal tt,
   {| view := {| patients := patients (view w);
                 activePatient := activePatient (view w);
                 messages := historyMessages h;
                 userInput := userInput (view w);
                 loading := loading (view w);
                 savingPatient := savingPatient (view w);
                 error := error (view w) |};
      console := console w |}).
Proof. reflexivity. Qed.

Lemma historyEffect_resume_rejected (e : Exn) (w : World) :
  historyEffect_resume (Throw e) w =
  (Normal tt,
   {| view := {| patients := patients (view w);
                 activePatient := activePatient (view w);
                 messages := messages (view w);
                 userInput := userInput (view w);
                 loading := loading (view w);
                 savingPatient := savingPatient (view w);
                 error := lit "Unable to load chat history." |};
      console := console w ++ [e] |}).
Proof. reflexivity. Qed.

(** Whenever a handler leaves another active patient than it found, the
    history effect runs on the state it leaves. *)
Lemma handle_runs_history_effect {A : Type} (m : M A)
    (calls : completion A -> list Request) (others : list Request)
    (c : Config) :
  JsVal_eqb (activePatient (view (world c)))
            (activePatient (view (snd (m (world c))))) = false ->
  world (handle m calls others c) = snd (historyEffect_begin (snd (m (world c))))
  /\ inFlight (handle m calls others c)
     = others ++ calls (fst (m (world c)))
       ++ issued ReqHistory (fst (historyEffect_begin (snd (m (world c))))).
Proof.
  intros H. unfold handle, afterRender.
  destruct (m (world c)) as [r w1]; cbn [fst snd] in *. rewrite H.
  destruct (historyEffect_begin w1) as [r' w2]. split; reflexivity.
Qed.

(** A click on another patient of the list, one that has an id. *)
Lemma step_SelectPatient_other (c : Config) (index : nat) (p : JsVal) :
  mounted c = true ->
  nth_error (patients (view (world c))) index = Some p ->
  JsVal_eqb (activePatient (view (world c))) p = false ->
  truthy p && truthy (get p (lit "id")) = true ->
  exists c' : Config,
    step (SelectPatient index) c = Some c'
    /\ activePatient (view (world c')) = p
    /\ messages (view (world c')) = messages (view (world c))
    /\ inFlight c' = inFlight c ++ [ReqHistory (get p (lit "id"))].
Proof.
  intros Hm Hn Hne Hp. unfold step. rewrite Hm, Hn.
  eexists; split; [reflexivity|].
  unfold handle, afterRender.
  unfold handleSelectPatient, bind, setActivePatient, setError, update.
  cbn [view activePatient fst snd]. rewrite Hne.
  rewrite historyEffect_begin_some by exact Hp.
  cbn. repeat split.
Qed.

(** C1, as the code has it. When the active patient becomes one that has an
    id, the history of that id is asked for and the state, the message list
    with it, is left as it is; a click on another patient of the list does
    just that. When the active patient is [null] or has no id, the message
    list is emptied and nothing is asked for. When the request resolves,
    the message list becomes the list of the payload (empty if it has
    none); when it rejects, the error is the message of the failed history
    load, the handler ends normally and the message list is left as it
    is. *)
Theorem history_follows_active_patient (w : World) :
  (truthy (activePatient (view w))
   && truthy (get (activePatient (view w)) (lit "id")) = true ->
   historyEffect_begin w
   = (Normal (Some (get (activePatient (view w)) (lit "id"))), w))
  /\ (truthy (activePatient (view w))
      && truthy (get (activePatient (view w)) (lit "id")) = false ->
      fst (historyEffect_begin w) = Normal None
      /\ messages (view (snd (historyEffect_begin w))) = []
      /\ renderedMessages (view (snd (historyEffect_begin w))) = [])
  /\ (forall h : HistoryPayload,
        let loaded := historyEffect_resume (Normal h) w in
        fst loaded = Normal tt
        /\ messages (view (snd loaded)) = historyMessages h
        /\ error (view (snd loaded)) = error (view w))
  /\ (forall e : Exn,
        let failed := historyEffect_resume (Throw e) w in
        fst failed = Normal tt
        /\ error (view (snd failed)) = lit "Unable to load chat history."
        /\ messages (view (snd failed)) = messages (view w))
  /\ (forall (c : Config) (index : nat) (p : JsVal),
        world c = w ->
        mounted c = true ->
        nth_error (patients (view w)) index = Some p ->
        JsVal_eqb (activePatient (view w)) p = false ->
        truthy p && truthy (get p (lit "id")) = true ->
        exists c' : Config,
          step (SelectPatient index) c = Some c'
          /\ activePatient (view (world c')) = p
          /\ messages (view (world c')) = messages (view w)
          /\ inFlight c' = inFlight c ++ [ReqHistory (get p (lit "id"))]).
Proof.
  split; [apply historyEffect_begin_some|].
  split.
  - intros H. rewrite (historyEffect_begin_none w H).
    unfold renderedMessages; cbn [fst snd view messages activePatient].
    repeat split. destruct (truthy (activePatient (view w))); reflexivity.
  - split; [intros h; repeat split|].
    split; [intros e; repeat split|].
    intros c index p <-. apply step_SelectPatient_other.
Qed.

(** Jane's message is still shown once John is the active patient, and it
    stays when the request for John's history fails. *)
Lemma stale_messages_after_switch :
  exists c c' : Config,
    run Scenario.switchToJohn initial = Some c
    /\ activePatient (view (world c)) = Scenario.john
    /\ renderedMessages (view (world c)) = [Scenario.janeSaid]
    /\ inFlight c = [ReqHistory (JStr (lit "p2"))]
    /\ step (HistorySettled (Throw Scenario.networkDown)) c = Some c'
    /\ activePatient (view (world c')) = Scenario.john
    /\ messages (view (world c')) = [Scenario.janeSaid]
    /\ messages (view (world c')) <> []
    /\ error (view (world c')) = lit "Unable to load chat history.".
Proof.
  eexists; eexists.
  split; [vm_compute; reflexivity|].
  split; [reflexivity|]. split; [reflexivity|]. split; [reflexivity|].
  split; [vm_compute; reflexivity|].
  split; [reflexivity|]. split; [reflexivity|].
  split; [discriminate | reflexivity].
Qed.

Lemma history_follows_active_patient_witness :
  exists c' : Config,
    step (SelectPatient 1) Scenario.janeShown = Some c'
    /\ activePatient (view (world c')) = Scenario.john
    /\ messages (view (world c')) = [Scenario.janeSaid]
    /\ inFlight c' = [ReqHistory (JStr (lit "p2"))].
Proof.
  exact (proj2 (proj2 (proj2 (proj2
           (history_follows_active_patient (world Scenario.janeShown)))))
           Scenario.janeShown 1 Scenario.john
           eq_refl eq_refl eq_refl eq_refl eq_refl).
Defined.

(* ------------------------------------------------------------------------- *)
(** ** One send at a time *)

Lemma afterRender_keeps (before : JsVal) (w : World) :
  loading (view (fst (afterRender before w))) = loading (view w)
  /\ filter isSend (snd (afterRender before w)) = [].
Proof.
  unfold afterRender.
  destruct (JsVal_eqb before (activePatient (view w))); [auto|].
  destruct (truthy (activePatient (view w))
            && truthy (get (activePatient (view w)) (lit "id"))) eqn:E.
  - rewrite (historyEffect_begin_some w E); auto.
  - rewrite (historyEffect_begin_none w E); auto.
Qed.

(** What a handler leaves of [loading] and of the sends in flight is what
    the render after it leaves. *)
Lemma handle_keeps {A : Type} (m : M A) (calls : completion A -> list Request)
    (others : list Request) (c : Config) :
  loading (view (world (handle m calls others c)))
  = loading (view (snd (m (world c))))
  /\ sendsInFlight (handle m calls others c)
     = length (filter isSend (others ++ calls (fst (m (world c))))).
Proof.
  unfold handle, sendsInFlight.
  destruct (m (world c)) as [r w1]; cbn [fst snd].
  destruct (afterRender_keeps (activePatient (view (world c))) w1) as [Hl Hf].
  destruct (afterRender (activePatient (view (world c))) w1) as [w2 more].
  cbn [fst snd world inFlight] in *.
  split; [exact Hl|].
  rewrite !filter_app, Hf, app_nil_r. reflexivity.
Qed.

Lemma settle_other (kind : Request -> bool) (l others : list Request) :
  (forall r, kind r = true -> isSend r = false) ->
  settle kind l = Some others ->
  filter isSend others = filter isSend l.
Proof.
  intros Hk; revert others; induction l as [|r l IH]; simpl; intros others H;
    [discriminate|].
  destruct (kind r) eqn:Er.
  - inversion H; subst. rewrite (Hk r Er). reflexivity.
  - destruct (settle kind l) as [rest|]; [|discriminate].
    inversion H; subst. simpl. rewrite (IH rest eq_refl). reflexivity.
Qed.

Lemma settle_send (l others : list Request) :
  settle isSend l = Some others ->
  length (filter isSend l) = S (length (filter isSend others)).
Proof.
  revert others; induction l as [|r l IH]; simpl; intros others H;
    [discriminate|].
  destruct (isSend r) eqn:Er.
  - inversion H; subst. reflexivity.
  - destruct (settle isSend l) as [rest|]; [|discriminate].
    inversion H; subst. simpl. rewrite Er. apply IH; reflexivity.
Qed.

Lemma handle_mounted {A : Type} (m : M A)
    (calls : completion A -> list Request) (others : list Request)
    (c : Config) :
  mounted (handle m calls others c) = true.
Proof.
  unfold handle. destruct (m (world c)) as [r w1].
  destruct (afterRender (activePatient (view (world c))) w1). reflexivity.
Qed.

(** A handler that leaves [loading] alone and issues no send keeps the
    invariant, whatever other call it settles. *)
Lemma handle_oneSend {A : Type} (m : M A)
    (calls : completion A -> list Request) (others : list Request)
    (c : Config) :
  oneSend c ->
  filter isSend others = filter isSend (inFlight c) ->
  loading (view (snd (m (world c)))) = loading (view (world c)) ->
  filter isSend (calls (fst (m (world c)))) = [] ->
  oneSend (handle m calls others c).
Proof.
  intros [Hc _] Ho Hl Hn. split.
  - destruct (handle_keeps m calls others c) as [H1 H2].
    rewrite H1, H2, Hl, filter_app, Hn, app_nil_r, Ho. exact Hc.
  - rewrite handle_mounted; discriminate.
Qed.

Lemma step_oneSend (ev : Event) (c c' : Config) :
  oneSend c -> step ev c = Some c' -> oneSend c'.
Proof.
  intros Hc Hs.
  destruct ev as [|o|index|o|value|clk|clk1 clk2 o|name|o]; simpl in Hs.
  - (* Mount *)
    destruct (mounted c) eqn:Em; [discriminate|].
    destruct Hc as [_ Hi]. rewrite (Hi Em) in Hs.
    inversion Hs; subst. split; [reflexivity | discriminate].
  - (* PatientsSettled *)
    destruct (settle isPatients (inFlight c)) as [others|] eqn:E;
      [|discriminate].
    inversion Hs; subst. apply handle_oneSend; try assumption.
    + apply settle_other with (kind := isPatients); [|assumption].
      intros [| | |]; simpl; congruence.
    + destruct o as [[l|]|e]; try reflexivity.
      unfold_handlers. destruct (0 <? length l); reflexivity.
    + reflexivity.
  - (* SelectPatient *)
    destruct (mounted c); [|discriminate].
    destruct (nth_error (patients (view (world c))) index); [|discriminate].
    inversion Hs; subst. apply handle_oneSend; auto.
  - (* HistorySettled *)
    destruct (settle isHistory (inFlight c)) as [others|] eqn:E;
      [|discriminate].
    inversion Hs; subst. apply handle_oneSend; try assumption.
    + apply settle_other with (kind := isHistory); [|assumption].
      intros [| | |]; simpl; congruence.
    + destruct o; reflexivity.
    + reflexivity.
  - (* Input *)
    destruct (mounted c); [|discriminate].
    inversion Hs; subst. apply handle_oneSend; auto.
  - (* Send *)
    destruct (mounted c); [|discriminate].
    inversion Hs; subst. clear Hs.
    destruct (canSend (view (world c))) eqn:Ec.
    + split; [|rewrite handle_mounted; discriminate].
      destruct (handle_keeps (handleSend_begin clk) (issued ReqSend)
                  (inFlight c) c) as [H1 H2].
      rewrite H1, H2, (handleSend_begin_enabled clk _ Ec).
      cbn [fst snd view loading issued].
      rewrite filter_app, length_app. cbn.
      destruct Hc as [Hc _]. unfold sendsInFlight in Hc. rewrite Hc.
      unfold canSend in Ec. rewrite !andb_true_iff, negb_true_iff in Ec.
      destruct Ec as [_ ->]. reflexivity.
    + apply handle_oneSend; auto;
        rewrite (handleSend_begin_disabled clk _ Ec); reflexivity.
  - (* SendSettled *)
    destruct (settle isSend (inFlight c)) as [others|] eqn:E; [|discriminate].
    inversion Hs; subst. clear Hs.
    split; [|rewrite handle_mounted; discriminate].
    destruct (handle_keeps (handleSend_resume clk1 clk2 o) none others c)
      as [H1 H2].
    rewrite H1, H2. unfold none. rewrite app_nil_r.
    assert (Hl : loading (view (snd (handleSend_resume clk1 clk2 o (world c))))
                 = false) by (destruct o; reflexivity).
    rewrite Hl.
    destruct Hc as [Hc _]. unfold sendsInFlight in Hc.
    rewrite (settle_send _ _ E) in Hc.
    destruct (loading (view (world c))); [|discriminate].
    injection Hc as Hc. exact Hc.
  - (* CreatePatient *)
    destruct (mounted c && negb (savingPatient (view (world c))));
      [|discriminate].
    inversion Hs; subst. apply handle_oneSend; auto.
    + unfold_handlers. destruct (truthy name); reflexivity.
    + unfold_handlers. destruct (truthy name); reflexivity.
  - (* CreateSettled *)
    destruct (settle isCreate (inFlight c)) as [others|] eqn:E;
      [|discriminate].
    inversion Hs; subst. apply handle_oneSend; try assumption.
    + apply settle_other with (kind := isCreate); [|assumption].
      intros [| | |]; simpl; congruence.
    + destruct o; reflexivity.
    + reflexivity.
Qed.

Lemma reachable_oneSend (c : Config) : reachable c -> oneSend c.
Proof.
  induction 1 as [|ev c c' _ IH Hs].
  - split; [reflexivity | auto].
  - exact (step_oneSend ev c c' IH Hs).
Qed.

Lemma step_Send_disabled (c c' : Config) (clk : Clock) :
  canSend (view (world c)) = false ->
  step (Send clk) c = Some c' -> c' = c.
Proof.
  intros Hc Hs. simpl in Hs.
  destruct (mounted c) eqn:Em; [|discriminate].
  inversion Hs; subst; clear Hs.
  unfold handle. rewrite (handleSend_begin_disabled clk _ Hc).
  unfold afterRender. rewrite JsVal_eqb_refl. cbn [issued].
  rewrite !app_nil_r. destruct c; simpl in *. subst. reflexivity.
Qed.

Lemma run_reachable (evs : list Event) (c c' : Config) :
  reachable c -> run evs c = Some c' -> reachable c'.
Proof.
  revert c; induction evs as [|ev evs IH]; simpl; intros c Hr H.
  - inversion H; subst; exact Hr.
  - destruct (step ev c) as [c1|] eqn:E; [|discriminate].
    apply (IH c1); [|exact H]. exact (reach_step ev c c1 Hr E).
Qed.

(** The page does reach a state with a send in flight. *)
Lemma sending_is_reachable :
  exists c : Config,
    run Scenario.helloTrace initial = Some c
    /\ reachable c
    /\ sendsInFlight c = 1
    /\ loading (view (world c)) = true
    /\ messages (view (world c))
       = [Scenario.janeSaid; userMessage Scenario.noon (lit "Hello")].
Proof.
  eexists. split; [vm_compute; reflexivity|].
  split; [|repeat split].
  apply (run_reachable Scenario.helloTrace initial); [exact reach_initial|].
  vm_compute; reflexivity.
Qed.

(** C9. When [canSend] is false, as it is whenever [loading] is set, the
    send intent issues no request and leaves the whole state as it is. In
    every state the page can reach, a send is in flight exactly while
    [loading] is set, so there is never more than one, and the send intent
    changes nothing while there is one. *)
Theorem send_blocked_while_disabled :
  (forall (clk : Clock) (w : World),
     canSend (view w) = false ->
     handleSend_begin clk w = (Normal None, w))
  /\ (forall w : World, loading (view w) = true -> canSend (view w) = false)
  /\ (forall c : Config,
        reachable c ->
        sendsInFlight c <= 1
        /\ (sendsInFlight c = 1 <-> loading (view (world c)) = true))
  /\ (forall (c c' : Config) (clk : Clock),
        reachable c ->
        sendsInFlight c = 1 ->
        step (Send clk) c = Some c' ->
        c' = c).
Proof.
  split; [exact handleSend_begin_disabled|].
  assert (Hload : forall w : World,
            loading (view w) = true -> canSend (view w) = false).
  { intros w H. unfold canSend. rewrite H. apply andb_false_r. }
  split; [exact Hload|].
  split.
  - intros c Hr. destruct (reachable_oneSend c Hr) as [H _].
    rewrite H. destruct (loading (view (world c))); split; try lia;
      split; congruence.
  - intros c c' clk Hr Hone Hs.
    apply (step_Send_disabled c c' clk); [|exact Hs].
    apply Hload. destruct (reachable_oneSend c Hr) as [H _].
    rewrite Hone in H. destruct (loading (view (world c)));
      [reflexivity | discriminate].
Qed.

Lemma send_blocked_while_disabled_witness :
  canSend (view Scenario.sendingHello) = false
  /\ handleSend_begin Scenario.noon Scenario.sendingHello
     = (Normal None, Scenario.sendingHello).
Proof.
  split; [reflexivity|].
  exact (proj1 send_blocked_while_disabled Scenario.noon
           Scenario.sendingHello eq_refl).
Defined.

(* ------------------------------------------------------------------------- *)
(** ** More on strings: trimming, collapsing, encoding *)

Lemma dropWhile_head (p : code_unit -> bool) (s : jsstring) (c : code_unit)
    (r : jsstring) :
  dropWhile p s = c :: r -> p c = false.
Proof.
  induction s as [|d s IH]; simpl; [discriminate|].
  destruct (p d) eqn:E; [exact IH|].
  intros H; inversion H; subst; exact E.
Qed.

Lemma dropWhile_kept (p : code_unit -> bool) (c : code_unit) (r : jsstring) :
  p c = false -> dropWhile p (c :: r) = c :: r.
Proof. intros H; simpl; rewrite H; reflexivity. Qed.

Lemma dropWhileEnd_head (p : code_unit -> bool) (c : code_unit)
    (r : jsstring) :
  p c = false -> dropWhileEnd p (c :: r) = c :: dropWhileEnd p r.
Proof. intros H; simpl. rewrite H, andb_false_r. reflexivity. Qed.

Lemma dropWhileEnd_idempotent (p : code_unit -> bool) (s : jsstring) :
  dropWhileEnd p (dropWhileEnd p s) = dropWhileEnd p s.
Proof.
  destruct (dropWhileEnd p s) as [|c r] eqn:E using rev_ind; [reflexivity|].
  apply dropWhileEnd_keeps. exact (dropWhileEnd_end p s r c E).
Qed.

(** What [trim] leaves neither starts nor ends with white space, and [trim]
    leaves it as it is. *)
Lemma trim_edges (s : jsstring) :
  (forall c r, trim s = c :: r -> isWhiteSpace c = false)
  /\ (forall a c, trim s = a ++ [c] -> isWhiteSpace c = false)
  /\ trim (trim s) = trim s.
Proof.
  unfold trim.
  assert (Hhead : forall c r,
            dropWhileEnd isWhiteSpace (dropWhile isWhiteSpace s) = c :: r ->
            isWhiteSpace c = false).
  { intros c r H.
    destruct (dropWhile isWhiteSpace s) as [|d t] eqn:D; [discriminate|].
    pose proof (dropWhile_head _ _ _ _ D) as Hd.
    rewrite (dropWhileEnd_head _ _ _ Hd) in H. inversion H; subst; exact Hd. }
  split; [exact Hhead|]. split.
  - intros a c H. exact (dropWhileEnd_end _ _ _ _ H).
  - destruct (dropWhileEnd isWhiteSpace (dropWhile isWhiteSpace s))
      as [|c r] eqn:E; [reflexivity|].
    rewrite (dropWhile_kept _ _ _ (Hhead c r eq_refl)).
    rewrite <- E. apply dropWhileEnd_idempotent.
Qed.

Lemma collapseFrom_length (b : bool) (s : jsstring) :
  length (collapseFrom b s) <= length s.
Proof.
  revert b; induction s as [|c r IH]; intros b; simpl; [lia|].
  destruct (isWhiteSpace c); [destruct b|]; simpl;
    specialize (IH true) as H1; specialize (IH false) as H2; lia.
Qed.

Lemma collapseFrom_idempotent (b b' : bool) (s : jsstring) :
  (b' = true -> b = true) ->
  collapseFrom b' (collapseFrom b s) = collapseFrom b s.
Proof.
  revert b b'; induction s as [|c r IH]; intros b b' Hb; simpl; [reflexivity|].
  destruct (isWhiteSpace c) eqn:Hc.
  - destruct b.
    + apply IH; auto.
    + destruct b'; [discriminate (Hb eq_refl)|].
      simpl. rewrite IH by auto. reflexivity.
  - simpl. rewrite Hc. rewrite IH by auto. reflexivity.
Qed.

Lemma collapseFrom_keeps_text (b : bool) (s : jsstring) :
  filter (fun c => negb (isWhiteSpace c)) (collapseFrom b s)
  = filter (fun c => negb (isWhiteSpace c)) s.
Proof.
  revert b; induction s as [|c r IH]; intros b; simpl; [reflexivity|].
  destruct (isWhiteSpace c) eqn:Hc; simpl.
  - destruct b; simpl; apply IH.
  - rewrite Hc; simpl. rewrite IH. reflexivity.
Qed.

(** X1. The snippet of a text: at most 160 code units, the beginning of the
    text with its runs of white space collapsed, white space in it only as
    single spaces; everything else of the text is kept in order when the
    collapsed text has at most 160 code units, and then the snippet is that
    text, on which collapsing again changes nothing. *)
Theorem snippetOf_facts (t : jsstring) :
  length (snippetOf t) <= 160
  /\ isCollapsed (snippetOf t) = true
  /\ (exists rest : jsstring, collapseWhiteSpace t = snippetOf t ++ rest)
  /\ length (collapseWhiteSpace t) <= length t
  /\ collapseWhiteSpace (collapseWhiteSpace t) = collapseWhiteSpace t
  /\ (length (collapseWhiteSpace t) <= 160 ->
      snippetOf t = collapseWhiteSpace t
      /\ filter (fun c => negb (isWhiteSpace c)) (snippetOf t)
         = filter (fun c => negb (isWhiteSpace c)) t).
Proof.
  split; [apply snippetOf_length|].
  split; [apply snippetOf_collapsed|].
  split.
  - exists (skipn 160 (collapseWhiteSpace t)).
    rewrite snippetOf_firstn. symmetry; apply firstn_skipn.
  - split; [apply collapseFrom_length|].
    split; [apply collapseFrom_idempotent; auto|].
    intros H. rewrite snippetOf_firstn, firstn_all2 by exact H.
    split; [reflexivity | apply collapseFrom_keeps_text].
Qed.

Lemma snippetOf_facts_witness :
  snippetOf (lit "<html>  <h1>502</h1>  </html>")
  = lit "<html> <h1>502</h1> </html>".
Proof.
  pose proof (snippetOf_facts (lit "<html>  <h1>502</h1>  </html>"))
    as (_ & _ & _ & _ & _ & H).
  assert (Hlen : length (collapseWhiteSpace
                           (lit "<html>  <h1>502</h1>  </html>")) <= 160)
    by (apply Nat.leb_le; vm_compute; reflexivity).
  rewrite (proj1 (H Hlen)). vm_compute. reflexivity.
Defined.

Lemma jsstring_pair_ind (P : jsstring -> Prop) :
  P [] ->
  (forall c rest,
     P rest -> (forall d rest', rest = d :: rest' -> P rest') -> P (c :: rest)) ->
  forall s, P s.
Proof.
  intros Hnil Hcons s.
  assert (H : P s /\ (forall d r, s = d :: r -> P r)); [|exact (proj1 H)].
  induction s as [|c s [IH1 IH2]].
  - split; [exact Hnil | discriminate].
  - split; [apply Hcons; assumption|].
    intros d r E; inversion E; subst; exact IH1.
Qed.

Lemma hexDigit_unreserved (n : N) :
  (n < 16)%N -> isUnreserved (hexDigit n) = true.
Proof.
  intros H. destruct n as [|p]; [reflexivity|].
  do 4 (destruct p as [p|p|]; try reflexivity); lia.
Qed.

Lemma percentOctet_safe (b : N) (c : code_unit) :
  In c (percentOctet b) -> isUnreserved c = true \/ c = percent.
Proof.
  unfold percentOctet; simpl.
  intros [<-|[<-|[<-|[]]]]; [right; reflexivity | left | left];
    apply hexDigit_unreserved; apply N.mod_lt; discriminate.
Qed.

Lemma escaped_safe (cp : N) (c : code_unit) :
  In c (escaped cp) -> isUnreserved c = true \/ c = percent.
Proof.
  unfold escaped. generalize (utf8 cp) as octets.
  induction octets as [|b l IH]; cbn [map concat]; [contradiction|].
  rewrite in_app_iff. intros [H|H]; [exact (percentOctet_safe b c H) | auto].
Qed.

Lemma unreserved_no_surrogate (c : code_unit) :
  isUnreserved c = true -> isLead c = false /\ isTrail c = false.
Proof.
  unfold isUnreserved, isLead, isTrail. intros H.
  assert (Hc : (c <= 126)%N).
  { repeat (apply orb_true_iff in H; destruct H as [H|H]);
      rewrite ?andb_true_iff, ?N.leb_le, ?N.eqb_eq in H; lia. }
  split; apply andb_false_iff; left; apply N.leb_gt; lia.
Qed.

Lemma option_map_defined {A B : Type} (f : A -> B) (o : option A) :
  option_map f o <> None <-> o <> None.
Proof. destruct o; simpl; split; congruence. Qed.

Lemma encodeURIComponent_defined (s : jsstring) :
  encodeURIComponent s <> None <-> isWellFormed s = true.
Proof.
  induction s as [|c rest IH IH2] using jsstring_pair_ind;
    [simpl; split; congruence|].
  simpl. destruct (isUnreserved c) eqn:Eu.
  - destruct (unreserved_no_surrogate c Eu) as [-> ->].
    rewrite option_map_defined. exact IH.
  - destruct (isLead c).
    + destruct rest as [|d rest']; [split; congruence|].
      destruct (isTrail d); simpl; [|split; congruence].
      rewrite option_map_defined. exact (IH2 d rest' eq_refl).
    + destruct (isTrail c); simpl; [split; congruence|].
      rewrite option_map_defined. exact IH.
Qed.

Lemma encodeURIComponent_safe (s out : jsstring) :
  encodeURIComponent s = Some out ->
  forall c, In c out -> isUnreserved c = true \/ c = percent.
Proof.
  revert out; induction s as [|c rest IH IH2] using jsstring_pair_ind;
    intros out; simpl.
  - intros H; inversion H; subst. contradiction.
  - destruct (isUnreserved c) eqn:Eu.
    + destruct (encodeURIComponent rest) as [o|]; [|discriminate].
      intros H; inversion H; subst. intros x [<-|Hx]; [auto|].
      exact (IH o eq_refl x Hx).
    + destruct (isLead c).
      * destruct rest as [|d rest']; [discriminate|].
        destruct (isTrail d); [|discriminate].
        destruct (encodeURIComponent rest') as [o|] eqn:Eo; [|discriminate].
        intros H; inversion H; subst. intros x Hx.
        apply in_app_iff in Hx. destruct Hx as [Hx|Hx].
        -- exact (escaped_safe _ x Hx).
        -- exact (IH2 d rest' eq_refl o Eo x Hx).
      * destruct (isTrail c); [discriminate|].
        destruct (encodeURIComponent rest) as [o|]; [|discriminate].
        intros H; inversion H; subst. intros x Hx.
        apply in_app_iff in Hx. destruct Hx as [Hx|Hx].
        -- exact (escaped_safe _ x Hx).
        -- exact (IH o eq_refl x Hx).
Qed.

Lemma encodeURIComponent_plain (s : jsstring) :
  forallb isUnreserved s = true -> encodeURIComponent s = Some s.
Proof.
  induction s as [|c r IH]; simpl; [reflexivity|].
  rewrite andb_true_iff; intros [Hc Hr]. rewrite Hc, (IH Hr). reflexivity.
Qed.

(** [encodeURIComponent] gives a result exactly for the strings in
    which every surrogate has its pair; the result is made of letters,
    digits, the marks [-_.!~*'()] and [%] only, so it holds no slash, no
    question mark and no hash; a string made of letters, digits and those
    marks is its own encoding. *)
Lemma encodeURIComponent_facts (s : jsstring) :
  ((exists out, encodeURIComponent s = Some out) <-> isWellFormed s = true)
  /\ (forall out : jsstring,
        encodeURIComponent s = Some out ->
        (forall c, In c out -> isUnreserved c = true \/ c = percent)
        /\ ~ In slash out /\ ~ In 63%N out /\ ~ In 35%N out)
  /\ (forallb isUnreserved s = true -> encodeURIComponent s = Some s).
Proof.
  split; [|split].
  - rewrite <- encodeURIComponent_defined.
    destruct (encodeURIComponent s) as [o|]; split;
      try congruence; eauto. intros [out H]; discriminate.
  - intros out H.
    pose proof (encodeURIComponent_safe s out H) as Hs.
    split; [exact Hs|].
    repeat split; intros Hin; destruct (Hs _ Hin) as [E|E]; discriminate E.
  - apply encodeURIComponent_plain.
Qed.

Lemma encodeURIComponent_facts_witness :
  encodeURIComponent (lit "p-1_a") = Some (lit "p-1_a").
Proof.
  apply (proj2 (proj2 (encodeURIComponent_facts (lit "p-1_a")))).
  reflexivity.
Defined.

(** X2. When the URL of the history request can be built, it is the base,
    [/patients/], one segment and [/history]; the segment is the encoded
    text of the id: it holds no slash, question mark or hash, and is the id
    itself when the id is made of letters, digits and the marks that are
    not encoded. The URL cannot be built exactly when the id has no string
    form or its text has a surrogate without its pair. *)
Theorem historyUrl_segment (base : jsstring) (patientId : JsVal) :
  (forall url : jsstring,
     historyUrl base patientId = Some url ->
     exists shown segment : jsstring,
       ToString patientId = Some shown
       /\ url = base ++ lit "/patients/" ++ segment ++ lit "/history"
       /\ ~ In slash segment /\ ~ In 63%N segment /\ ~ In 35%N segment
       /\ (forallb isUnreserved shown = true -> segment = shown))
  /\ (historyUrl base patientId = None <->
      ToString patientId = None
      \/ exists shown, ToString patientId = Some shown
                       /\ isWellFormed shown = false).
Proof.
  unfold historyUrl. split.
  - intros url H.
    destruct (ToString patientId) as [shown|]; [|discriminate].
    destruct (encodeURIComponent shown) as [seg|] eqn:E; [|discriminate].
    inversion H; subst. exists shown, seg.
    destruct (proj1 (proj2 (encodeURIComponent_facts shown)) seg E)
      as (_ & H1 & H2 & H3).
    repeat split; auto.
    intros Hp. rewrite (encodeURIComponent_plain shown Hp) in E.
    inversion E; reflexivity.
  - destruct (ToString patientId) as [shown|]; [|split; auto].
    pose proof (encodeURIComponent_defined shown) as Hd.
    destruct (encodeURIComponent shown) as [seg|]; split.
    + discriminate.
    + intros [H|[sh [H1 H2]]]; [discriminate|].
      inversion H1; subst.
      assert (isWellFormed sh = true) by (apply Hd; discriminate).
      congruence.
    + intros _. right. exists shown. split; [reflexivity|].
      destruct (isWellFormed shown); [|reflexivity].
      exfalso. apply (proj2 Hd); reflexivity.
    + reflexivity.
Qed.

Lemma historyUrl_segment_witness :
  exists shown segment : jsstring,
    ToString (JStr (lit "a/b c")) = Some shown
    /\ lit "/api/patients/a%2Fb%20c/history"
       = lit "/api" ++ lit "/patients/" ++ segment ++ lit "/history"
    /\ ~ In slash segment /\ ~ In 63%N segment /\ ~ In 35%N segment
    /\ (forallb isUnreserved shown = true -> segment = shown).
Proof.
  apply (proj1 (historyUrl_segment (lit "/api") (JStr (lit "a/b c")))).
  vm_compute. reflexivity.
Defined.

(* ------------------------------------------------------------------------- *)
(** ** More on the REST client *)

Lemma tryParseJson_fst (res : Response) (v : JsVal) :
  fst (json res) = Normal v -> fst (tryParseJson res) = v.
Proof.
  unfold tryParseJson. destruct (json res) as [[x|e] r]; simpl; congruence.
Qed.

Lemma buildHttpError_field (res : Response) (defaultMsg shown : jsstring) :
  truthy (fst (tryParseJson res)) = true ->
  truthy (errorField (fst (tryParseJson res))) = true ->
  ToString (errorField (fst (tryParseJson res))) = Some shown ->
  buildHttpError res defaultMsg = Normal (Error (defaultMsg ++ lit ": " ++ shown)).
Proof.
  intros H1 H2 H3. pose proof (buildHttpError_tiers res defaultMsg) as H.
  cbv zeta in H. rewrite H1, H2, H3 in H. exact H.
Qed.

(** X4. The field of the body that the error shows: [detail] when it is
    there, else [message], else [error]; when the one chosen is a string
    that is not empty, the message of the error is the default message of
    the operation, a colon, a space and that string. *)
Theorem buildHttpError_field_precedence (res : Response)
    (defaultMsg : jsstring) (props : list (jsstring * JsVal)) (s : jsstring) :
  fst (json res) = Normal (JObj props) ->
  s <> [] ->
  lookup (lit "detail") props = JStr s
  \/ (truthy (lookup (lit "detail") props) = false
      /\ lookup (lit "message") props = JStr s)
  \/ (truthy (lookup (lit "detail") props) = false
      /\ truthy (lookup (lit "message") props) = false
      /\ lookup (lit "error") props = JStr s) ->
  buildHttpError res defaultMsg = Normal (Error (defaultMsg ++ lit ": " ++ s)).
Proof.
  intros Hj Hs Hf. pose proof (tryParseJson_fst res _ Hj) as Hd.
  assert (Ht : truthy (JStr s) = true) by (destruct s; [contradiction|reflexivity]).
  assert (He : errorField (JObj props) = JStr s).
  { unfold errorField, or_else; cbn [get].
    destruct Hf as [H|[[H1 H2]|[H1 [H2 H3]]]].
    - rewrite H, Ht. cbv iota. rewrite Ht. reflexivity.
    - rewrite H1, H2. cbv iota. rewrite Ht. reflexivity.
    - rewrite H1. cbv iota. rewrite H2, H3. reflexivity. }
  apply buildHttpError_field; rewrite Hd; [reflexivity | | ]; rewrite He;
    [exact Ht | reflexivity].
Qed.

Lemma buildHttpError_field_precedence_witness :
  buildHttpError Scenario.notFound (lit "Failed to fetch history for p9")
  = Normal (Error (lit "Failed to fetch history for p9: Patient not found")).
Proof.
  apply (buildHttpError_field_precedence Scenario.notFound
           (lit "Failed to fetch history for p9")
           [(lit "message", JStr (lit "gone"));
            (lit "detail", JStr (lit "Patient not found"))]
           (lit "Patient not found")).
  - reflexivity.
  - discriminate.
  - left. reflexivity.
Defined.

Lemma ToString_primitive (v : JsVal) :
  ToString v = None ->
  match v with
  | JObj props => hasKey (lit "toString") props = true
  | JArr _ => True
  | _ => False
  end.
Proof.
  destruct v as [| |[|]|t|s|elems|props]; simpl; try discriminate; auto.
  destruct (hasKey (lit "toString") props); [reflexivity | discriminate].
Qed.

(** X5. [buildHttpError] throws in one case only: the body is JSON, the
    field it chose is an array or an object that has a [toString] entry, and
    that value has no string form; what is thrown is then the [TypeError]
    of the conversion. For every other response it returns an error. *)
Theorem buildHttpError_throws_only_on_objects (res : Response)
    (defaultMsg : jsstring) (e : Exn) :
  buildHttpError res defaultMsg = Throw e ->
  e = cannotConvert
  /\ truthy (fst (tryParseJson res)) = true
  /\ ToString (errorField (fst (tryParseJson res))) = None
  /\ match errorField (fst (tryParseJson res)) with
     | JObj props => hasKey (lit "toString") props = true
     | JArr _ => True
     | _ => False
     end.
Proof.
  intros H. pose proof (buildHttpError_tiers res defaultMsg) as T.
  cbv zeta in T.
  destruct (truthy (fst (tryParseJson res))) eqn:E1;
    [destruct (truthy (errorField (fst (tryParseJson res)))) eqn:E2|];
    cbn [andb] in T.
  - destruct (ToString (errorField (fst (tryParseJson res)))) eqn:E3.
    + rewrite T in H; discriminate.
    + rewrite T in H; inversion H; subst.
      repeat split. apply ToString_primitive; exact E3.
  - destruct (fst (text (snd (tryParseJson res)))).
    + destruct T as [sn [T _]]. rewrite T in H; discriminate.
    + rewrite T in H; discriminate.
  - destruct (fst (text (snd (tryParseJson res)))).
    + destruct T as [sn [T _]]. rewrite T in H; discriminate.
    + rewrite T in H; discriminate.
Qed.

Lemma buildHttpError_throws_only_on_objects_witness :
  cannotConvert = cannotConvert
  /\ truthy (fst (tryParseJson Scenario.oddDetail)) = true
  /\ ToString (errorField (fst (tryParseJson Scenario.oddDetail))) = None
  /\ match errorField (fst (tryParseJson Scenario.oddDetail)) with
     | JObj props => hasKey (lit "toString") props = true
     | JArr _ => True
     | _ => False
     end.
Proof.
  apply (buildHttpError_throws_only_on_objects Scenario.oddDetail
           (lit "Failed to save patient") cannotConvert).
  vm_compute. reflexivity.
Defined.

(** X6. For a response that has a body, [res.json()] has read it before the
    text is asked for: when the body gives no field to show, the message is
    the default message with the status line and never has a snippet. *)
Theorem buildHttpError_no_snippet_with_body (res : Response)
    (defaultMsg : jsstring) :
  hasBody res = true ->
  truthy (fst (tryParseJson res))
  && truthy (errorField (fst (tryParseJson res))) = false ->
  buildHttpError res defaultMsg
  = Normal (Error (defaultMsg ++ lit ": HTTP " ++ decimal (status res)
                   ++ lit " " ++ statusText res)).
Proof.
  intros Hb Hf. pose proof (buildHttpError_tiers res defaultMsg) as T.
  cbv zeta in T. rewrite Hf, (buildHttpError_body_read res defaultMsg Hb) in T.
  exact T.
Qed.

Lemma buildHttpError_no_snippet_with_body_witness :
  buildHttpError Scenario.gatewayPage (lit "Failed to send message")
  = Normal (Error (lit "Failed to send message: HTTP 502 Bad Gateway")).
Proof.
  apply (buildHttpError_no_snippet_with_body Scenario.gatewayPage
           (lit "Failed to send message")); reflexivity.
Defined.

(** X7. An operation resolves only for a response with a status from 200 to
    299, and then with what [res.json()] gives; a failure of [fetch] is
    passed on as it is; for every other response the operation rejects,
    and what it rejects with is the [TypeError] of the conversion or an
    error whose message begins with the default message of the operation,
    a colon and a space. *)
Theorem respond_outcomes (defaultMsg : jsstring) (fetched : completion Response) :
  (forall v : JsVal,
     respond defaultMsg fetched = Normal v ->
     exists res, fetched = Normal res /\ ok res = true
                 /\ fst (json res) = Normal v)
  /\ (forall e : Exn, fetched = Throw e -> respond defaultMsg fetched = Throw e)
  /\ (forall res : Response,
        fetched = Normal res -> ok res = false ->
        exists e : Exn,
          respond defaultMsg fetched = Throw e
          /\ (e = cannotConvert
              \/ exists rest, e = Error (defaultMsg ++ lit ": " ++ rest))).
Proof.
  split; [|split].
  - intros v H. destruct fetched as [res|e]; simpl in H; [|discriminate].
    destruct (ok res) eqn:Eo.
    + exists res; auto.
    + destruct (buildHttpError res defaultMsg); discriminate.
  - intros e ->. reflexivity.
  - intros res -> Ho. simpl. rewrite Ho.
    pose proof (buildHttpError_tiers res defaultMsg) as T. cbv zeta in T.
    destruct (truthy (fst (tryParseJson res))
              && truthy (errorField (fst (tryParseJson res)))).
    + destruct (ToString (errorField (fst (tryParseJson res)))) as [sh|];
        rewrite T; eexists; (split; [reflexivity|]).
      * right. exists sh. reflexivity.
      * left. reflexivity.
    + destruct (fst (text (snd (tryParseJson res)))).
      * destruct T as [sn [T _]]. rewrite T.
        eexists; split; [reflexivity|]. right.
        exists (lit "HTTP " ++ decimal (status res) ++ lit " "
                ++ statusText res ++ lit " " ++ emDash ++ lit " " ++ sn).
        reflexivity.
      * rewrite T. eexists; split; [reflexivity|]. right.
        exists (lit "HTTP " ++ decimal (status res) ++ lit " "
                ++ statusText res).
        reflexivity.
Qed.

Lemma respond_outcomes_witness :
  exists e : Exn,
    sendChatMessage (Normal Scenario.gatewayPage) = Throw e
    /\ (e = cannotConvert
        \/ exists rest, e = Error (lit "Failed to send message" ++ lit ": " ++ rest)).
Proof.
  apply (proj2 (proj2 (respond_outcomes (lit "Failed to send message")
                         (Normal Scenario.gatewayPage)))
           Scenario.gatewayPage eq_refl eq_refl).
Defined.

Lemma lookup_absent (k : jsstring) (props : list (jsstring * JsVal)) :
  ~ In k (map fst props) -> lookup k props = JUndefined.
Proof.
  induction props as [|[k1 v1] r IH]; simpl; [reflexivity|].
  intros H. destruct (jseqb k k1) eqn:E.
  - apply jseqb_eq in E. exfalso; apply H; left; auto.
  - apply IH. intros Hin; apply H; right; exact Hin.
Qed.

Lemma lookup_filter_defined (k : jsstring) (props : list (jsstring * JsVal)) :
  NoDup (map fst props) ->
  lookup k (filter (fun kv => negb (isNullish (snd kv))) props)
  = if isNullish (lookup k props) then JUndefined else lookup k props.
Proof.
  induction props as [|[k1 v1] r IH]; simpl; [reflexivity|].
  intros Hnd. inversion Hnd as [|? ? Hin Hr]; subst.
  destruct (jseqb k k1) eqn:E.
  - destruct (isNullish v1) eqn:Ev; simpl; [|rewrite E; reflexivity].
    apply jseqb_eq in E; subst k1. apply lookup_absent.
    intros H. apply Hin. apply in_map_iff in H.
    destruct H as [[k' v'] [Hk Hf]]. apply filter_In in Hf.
    apply in_map_iff. exists (k', v'). split; [exact Hk | exact (proj1 Hf)].
  - destruct (isNullish v1); simpl; [|rewrite E]; apply IH; exact Hr.
Qed.

Lemma filter_twice {A : Type} (f : A -> bool) (l : list A) :
  filter f (filter f l) = filter f l.
Proof.
  induction l as [|a l IH]; simpl; [reflexivity|].
  destruct (f a) eqn:E; simpl; [rewrite E, IH|]; auto.
Qed.

(** X8. The object [createOrUpdatePatient] sends has no entry that is [null]
    or [undefined]; every other entry of the patient is in it with its
    value, so reading a key gives the value the patient has for it, or
    [undefined] where the patient has [null]; cleaning it again changes
    nothing; and for no patient at all it is the empty object. *)
Theorem clean_facts (patient : JsVal) :
  (exists props : list (jsstring * JsVal),
     clean patient = JObj props
     /\ (forall k v, In (k, v) props -> isNullish v = false)
     /\ (truthy patient = false -> props = []))
  /\ clean (clean patient) = clean patient
  /\ (forall (props : list (jsstring * JsVal)) (k : jsstring),
        patient = JObj props ->
        NoDup (map fst props) ->
        get (clean patient) k
        = if isNullish (lookup k props) then JUndefined else lookup k props).
Proof.
  split; [|split].
  - eexists. split; [reflexivity|]. split.
    + intros k v H. apply filter_In in H. destruct H as [_ H].
      simpl in H. apply negb_true_iff in H. exact H.
    + intros ->. reflexivity.
  - unfold clean at 1. cbn [clean truthy entries].
    unfold clean. cbn [truthy entries]. rewrite filter_twice. reflexivity.
  - intros props k -> Hnd. unfold clean. cbn [truthy entries get].
    apply lookup_filter_defined; exact Hnd.
Qed.

Lemma clean_facts_witness :
  get (clean Scenario.annForm) (lit "age") = JUndefined
  /\ get (clean Scenario.annForm) (lit "name") = JStr (lit "Ann").
Proof.
  assert (Hnd : NoDup (map fst [(lit "name", JStr (lit "Ann"));
                                (lit "age", JNull);
                                (lit "notes",
                                 JStr (lit "allergic to penicillin"))])).
  { repeat constructor; simpl; intros H;
      repeat (destruct H as [H|H]; [discriminate H|]); exact H. }
  split.
  - exact (proj2 (proj2 (clean_facts Scenario.annForm)) _ (lit "age")
             eq_refl Hnd).
  - exact (proj2 (proj2 (clean_facts Scenario.annForm)) _ (lit "name")
             eq_refl Hnd).
Defined.

(** X9. The hardened module gives the error of the second draft whenever
    the body has a [detail] or a [message] to show; where it has neither,
    the second draft gives the error of the first one, the default message
    with the number of the status. *)
Theorem drafts_agree (res : Response) (defaultMsg : jsstring) :
  let data := fst (tryParseJson res) in
  let shown := or_else (get data (lit "detail")) (get data (lit "message")) in
  (truthy shown = true ->
   buildHttpError res defaultMsg = draftError res defaultMsg)
  /\ (truthy shown = false ->
      draftError res defaultMsg = Normal (firstDraftError res defaultMsg)).
Proof.
  cbv zeta. unfold draftError, firstDraftError.
  pose proof (buildHttpError_tiers res defaultMsg) as T. cbv zeta in T.
  destruct (tryParseJson res) as [data res'] eqn:Ep. cbn [fst snd] in *.
  split; intros H; rewrite H; [|reflexivity].
  assert (Hd : truthy data = true).
  { destruct data; try reflexivity; discriminate H. }
  assert (He : errorField data
               = or_else (get data (lit "detail")) (get data (lit "message"))).
  { unfold errorField. unfold or_else at 1. rewrite H. reflexivity. }
  rewrite Hd, He, H in T. cbn [andb] in T.
  destruct (ToString (or_else (get data (lit "detail"))
                              (get data (lit "message")))); exact T.
Qed.

Lemma drafts_agree_witness :
  buildHttpError Scenario.notFound (lit "Failed to fetch patients")
  = draftError Scenario.notFound (lit "Failed to fetch patients").
Proof.
  apply (proj1 (drafts_agree Scenario.notFound (lit "Failed to fetch patients"))).
  reflexivity.
Defined.

(** X10. A backend URL that has no white space around it, does not end with
    a slash and does not end with ["/api"] in any capitalisation is the
    base as it stands, as it was in the drafts; so is the missing and the
    empty value, for which both give ["/api"]. *)
Theorem normalizeBaseUrl_clean_unchanged (s : jsstring) :
  trim s = s ->
  endsWith s (lit "/") = false ->
  endsWith (toLowerCase s) (lit "/api") = false ->
  normalizeBaseUrl (Some s) = draftBaseUrl (Some s)
  /\ (s <> [] -> normalizeBaseUrl (Some s) = s)
  /\ normalizeBaseUrl None = draftBaseUrl None.
Proof.
  intros Ht Hs Ha.
  assert (H : strippedTo (trim s) s).
  { rewrite Ht. apply stripped_plain with (sl := []).
    - symmetry; apply app_nil_r.
    - reflexivity.
    - intros y E. rewrite E in Hs.
      change (lit "/") with [slash] in Hs. rewrite endsWith_app in Hs.
      discriminate.
    - intros y x E Hx. rewrite E, toLowerCase_app, Hx, endsWith_app in Ha.
      discriminate. }
  rewrite (normalizeBaseUrl_stripped s s H). unfold draftBaseUrl.
  split; [reflexivity|]. split; [|reflexivity].
  intros Hne. destruct s; [contradiction | reflexivity].
Qed.

Lemma normalizeBaseUrl_clean_unchanged_witness :
  normalizeBaseUrl (Some (lit "http://localhost:8000"))
  = lit "http://localhost:8000".
Proof.
  apply (proj1 (proj2 (normalizeBaseUrl_clean_unchanged
                         (lit "http://localhost:8000")
                         eq_refl eq_refl eq_refl))).
  discriminate.
Defined.

(* ------------------------------------------------------------------------- *)
(** ** More on the controller and the components *)

Lemma canSend_true_parts (st : ViewState) :
  canSend st = true ->
  trim (userInput st) <> []
  /\ truthy (activePatient st) = true
  /\ loading st = false.
Proof.
  unfold canSend. rewrite !andb_true_iff, negb_true_iff.
  intros [[H1 H2] H3]. repeat split; auto.
  intros E; rewrite E in H1; discriminate.
Qed.

(** X11. The message that a send hands to the REST client is the input
    without the white space around it: it is never empty, neither starts
    nor ends with white space, and goes with the id of the active patient;
    the input field is empty afterwards. *)
Theorem handleSend_request_text (clk : Clock) (w : World) (r : SendRequest) :
  fst (handleSend_begin clk w) = Normal (Some r) ->
  canSend (view w) = true
  /\ message r = trim (userInput (view w))
  /\ message r <> []
  /\ (forall c rest, message r = c :: rest -> isWhiteSpace c = false)
  /\ (forall a c, message r = a ++ [c] -> isWhiteSpace c = false)
  /\ trim (message r) = message r
  /\ patientId r = get (activePatient (view w)) (lit "id")
  /\ userInput (view (snd (handleSend_begin clk w))) = [].
Proof.
  intros H. destruct (canSend (view w)) eqn:Ec.
  - rewrite (handleSend_begin_enabled clk w Ec) in *. cbn [fst snd] in *.
    inversion H; subst r; clear H. cbn [message patientId view userInput].
    destruct (trim_edges (userInput (view w))) as (H1 & H2 & H3).
    repeat split; auto.
    exact (proj1 (canSend_true_parts (view w) Ec)).
  - rewrite (handleSend_begin_disabled clk w Ec) in H. discriminate.
Qed.

Lemma handleSend_request_text_witness :
  message {| patientId := JStr (lit "p1"); message := lit "Hello" |}
  = trim (userInput (view Scenario.typedHello)).
Proof.
  exact (proj1 (proj2 (handleSend_request_text Scenario.noon
                         Scenario.typedHello
                         {| patientId := JStr (lit "p1");
                            message := lit "Hello" |} eq_refl))).
Defined.

(** X12. A key other than Enter, and Enter with Shift, does nothing: the
    default action is kept and the state is untouched. Enter without Shift
    always takes the default action away, and sends exactly when the send
    button is enabled; while a send is in flight the button is disabled
    and reads ["Sending..."]. *)
Theorem onKeyDown_behaviour (clk : Clock) (key : jsstring) (shiftKey : bool)
    (w : World) :
  (jseqb key (lit "Enter") && negb shiftKey = false ->
   onKeyDown clk key shiftKey w = (Normal (false, None), w))
  /\ (key = lit "Enter" -> shiftKey = false ->
      onKeyDown clk key shiftKey w
      = (match fst (handleSend_begin clk w) with
         | Normal r => Normal (true, r)
         | Throw e => Throw e
         end, snd (handleSend_begin clk w))
      /\ (sendDisabled (view w) = true ->
          onKeyDown clk key shiftKey w = (Normal (true, None), w))
      /\ (sendDisabled (view w) = false ->
          exists r, fst (onKeyDown clk key shiftKey w) = Normal (true, Some r)))
  /\ (loading (view w) = true ->
      sendDisabled (view w) = true /\ sendLabel (view w) = lit "Sending...").
Proof.
  split; [|split].
  - intros H. unfold onKeyDown. rewrite H. reflexivity.
  - intros -> ->.
    change (onKeyDown clk (lit "Enter") false)
      with (bind (handleSend_begin clk) (fun r => ret (true, r))).
    unfold sendDisabled, bind, ret.
    destruct (canSend (view w)) eqn:Ec.
    + rewrite (handleSend_begin_enabled clk w Ec). cbn [fst snd].
      split; [reflexivity|]. split; [discriminate|].
      intros _. eexists. reflexivity.
    + rewrite (handleSend_begin_disabled clk w Ec). cbn [fst snd].
      split; [reflexivity|]. split; [reflexivity | discriminate].
  - intros H. unfold sendDisabled, sendLabel, canSend. rewrite H.
    rewrite andb_false_r. split; reflexivity.
Qed.

Lemma onKeyDown_behaviour_witness :
  onKeyDown Scenario.noon (lit "Enter") true Scenario.typedHello
  = (Normal (false, None), Scenario.typedHello).
Proof.
  apply (proj1 (onKeyDown_behaviour Scenario.noon (lit "Enter") true
                  Scenario.typedHello)).
  reflexivity.
Defined.




(** The bubbles of the three messages that [handleSend] builds. *)
Lemma MessageBubble_of_built_messages (clk : Clock) (input : jsstring) :
  MessageBubble (userMessage clk input) = Some (lit "msg user  ", lit "You")
  /\ MessageBubble (agent1Fallback clk)
     = Some (lit "msg  agent1 ", lit "AI Agent 1")
  /\ MessageBubble (agent2Fallback clk)
     = Some (lit "msg   agent2", lit "AI Agent 2").
Proof. repeat split. Qed.

(** X14. In the list of patients an entry is marked active when its id is
    the id of the active patient: for ids that are strings, exactly when the
    two strings are equal, so every entry that repeats the id is marked
    too; and when there is no active patient, or the active patient has no
    id, exactly the entries that have no id are marked. *)
Theorem isActiveItem_marks (active p : JsVal) :
  isNullish p = false ->
  (forall a b : jsstring,
     get active (lit "id") = JStr a ->
     get p (lit "id") = JStr b ->
     isActiveItem active p = Some true <-> a = b)
  /\ (get active (lit "id") = JUndefined ->
      isActiveItem active p = Some true <-> get p (lit "id") = JUndefined)
  /\ (isNullish active = true -> get active (lit "id") = JUndefined).
Proof.
  intros Hp. unfold isActiveItem. rewrite Hp. split; [|split].
  - intros a b -> ->. simpl. rewrite <- jseqb_eq.
    split; [intros H; inversion H; reflexivity | intros ->; reflexivity].
  - intros ->. destruct (get p (lit "id")); simpl; split;
      try discriminate; reflexivity.
  - destruct active; simpl; try discriminate; reflexivity.
Qed.

Lemma isActiveItem_marks_witness :
  isActiveItem JNull (JObj [(lit "name", JStr (lit "Ann"))]) = Some true.
Proof.
  apply (proj1 (proj2 (isActiveItem_marks JNull
                         (JObj [(lit "name", JStr (lit "Ann"))]) eq_refl))
           eq_refl).
  reflexivity.
Defined.

(** X15. The label of the theme button names the theme that the click
    gives; the click gives ["dark"] from ["light"] and ["light"] from
    anything else, so from the second click on it alternates between the
    two. *)
Theorem toggleTheme_label (theme : jsstring) :
  themeLabel theme = lit "Switch to " ++ toggleTheme theme ++ lit " mode"
  /\ (toggleTheme theme = lit "dark" <-> theme = lit "light")
  /\ (toggleTheme theme <> lit "dark" -> toggleTheme theme = lit "light")
  /\ toggleTheme (toggleTheme (toggleTheme theme)) = toggleTheme theme.
Proof.
  unfold themeLabel, toggleTheme.
  destruct (jseqb theme (lit "light")) eqn:E.
  - apply jseqb_eq in E. subst. repeat split; auto.
    intros H; contradiction.
  - repeat split; auto; try discriminate.
    intros ->. discriminate E.
Qed.

Lemma handleCreatePatient_resume_resolved (saved : JsVal) (w : World) :
  handleCreatePatient_resume (Normal saved) w =
  (Normal tt,
   {| view := {| patients := saved :: patients (view w);
                 activePatient := saved;
                 messages := messages (view w);
                 userInput := userInput (view w);
                 loading := loading (view w);
                 savingPatient := false;
                 error := error (view w) |};
      console := console w |}).
Proof. reflexivity. Qed.

Lemma handleCreatePatient_resume_rejected (e : Exn) (w : World) :
  handleCreatePatient_resume (Throw e) w =
  (Normal tt,
   {| view := {| patients := patients (view w);
                 activePatient := activePatient (view w);
                 messages := messages (view w);
                 userInput := userInput (view w);
                 loading := loading (view w);
                 savingPatient := false;
                 error := lit "Unable to create patient." |};
      console := console w ++ [e] |}).
Proof. reflexivity. Qed.

(** X16. Creating a patient. A prompt that was cancelled or left empty
    changes nothing and asks for nothing. A name makes the request for a
    patient of that name, which [clean] sends as it is. When the request
    resolves, the saved patient is put in front of the list, whatever the
    list holds, the list is one longer and the saved patient is the active
    one; when it rejects, list and active patient are as before and the
    error is the message of the failed creation. [savingPatient] is false
    after both. *)
Theorem handleCreatePatient_outcomes (name saved : JsVal) (e : Exn)
    (w : World) :
  (truthy name = false ->
   handleCreatePatient_begin name w = (Normal None, w))
  /\ (truthy name = true ->
      fst (handleCreatePatient_begin name w)
      = Normal (Some (JObj [(lit "name", name)]))
      /\ clean (JObj [(lit "name", name)]) = JObj [(lit "name", name)]
      /\ savingPatient (view (snd (handleCreatePatient_begin name w))) = true
      /\ patients (view (snd (handleCreatePatient_begin name w)))
         = patients (view w))
  /\ (let done := handleCreatePatient_resume (Normal saved) w in
      patients (view (snd done)) = saved :: patients (view w)
      /\ length (patients (view (snd done))) = S (length (patients (view w)))
      /\ activePatient (view (snd done)) = saved
      /\ savingPatient (view (snd done)) = false
      /\ error (view (snd done)) = error (view w))
  /\ (let failed := handleCreatePatient_resume (Throw e) w in
      patients (view (snd failed)) = patients (view w)
      /\ activePatient (view (snd failed)) = activePatient (view w)
      /\ savingPatient (view (snd failed)) = false
      /\ error (view (snd failed)) = lit "Unable to create patient.").
Proof.
  split; [|split; [|split]].
  - intros H. unfold handleCreatePatient_begin. rewrite H. reflexivity.
  - intros H. unfold handleCreatePatient_begin. rewrite H.
    repeat split. unfold clean. cbn [truthy entries filter snd].
    destruct name; try discriminate H; reflexivity.
  - cbv zeta. rewrite handleCreatePatient_resume_resolved. repeat split.
  - cbv zeta. rewrite handleCreatePatient_resume_rejected. repeat split.
Qed.

Lemma handleCreatePatient_outcomes_witness :
  handleCreatePatient_begin JNull Scenario.typedHello
  = (Normal None, Scenario.typedHello).
Proof.
  apply (proj1 (handleCreatePatient_outcomes JNull JNull Scenario.networkDown
                  Scenario.typedHello)).
  reflexivity.
Defined.

(** X17. No failure of the REST client leaves the controller: each of the
    four continuations ends normally whatever its call settled with; on a
    rejection it logs the rejection, once, and on a resolution it logs
    nothing and leaves the error as it is. The parts that run before the
    calls end normally as well. *)
Theorem failures_are_contained (w : World) :
  (forall o, fst (loadPatients_resume o w) = Normal tt)
  /\ (forall o, fst (historyEffect_resume o w) = Normal tt)
  /\ (forall clk1 clk2 o, fst (handleSend_resume clk1 clk2 o w) = Normal tt)
  /\ (forall o, fst (handleCreatePatient_resume o w) = Normal tt)
  /\ (forall e clk1 clk2,
        console (snd (loadPatients_resume (Throw e) w)) = console w ++ [e]
        /\ console (snd (historyEffect_resume (Throw e) w)) = console w ++ [e]
        /\ console (snd (handleSend_resume clk1 clk2 (Throw e) w))
           = console w ++ [e]
        /\ console (snd (handleCreatePatient_resume (Throw e) w))
           = console w ++ [e])
  /\ (forall data history resp saved clk1 clk2,
        let a := snd (loadPatients_resume (Normal data) w) in
        let b := snd (historyEffect_resume (Normal history) w) in
        let c := snd (handleSend_resume clk1 clk2 (Normal resp) w) in
        let d := snd (handleCreatePatient_resume (Normal saved) w) in
        (console a = console w /\ error (view a) = error (view w))
        /\ (console b = console w /\ error (view b) = error (view w))
        /\ (console c = console w /\ error (view c) = error (view w))
        /\ (console d = console w /\ error (view d) = error (view w)))
  /\ (forall clk name p,
        (exists r, fst (handleSend_begin clk w) = Normal r)
        /\ (exists r, fst (historyEffect_begin w) = Normal r)
        /\ (exists r, fst (handleCreatePatient_begin name w) = Normal r)
        /\ fst (handleSelectPatient p w) = Normal tt).
Proof.
  assert (Hload : forall data,
            fst (loadPatients_resume (Normal data) w) = Normal tt
            /\ console (snd (loadPatients_resume (Normal data) w)) = console w
            /\ error (view (snd (loadPatients_resume (Normal data) w)))
               = error (view w)).
  { intros [l|]; unfold_handlers; [|repeat split].
    destruct (0 <? length l); repeat split. }
  repeat split.
  - destruct o as [data|e]; [apply Hload | reflexivity].
  - destruct o; reflexivity.
  - destruct o; reflexivity.
  - destruct o; reflexivity.
  - apply Hload.
  - apply Hload.
  - unfold_handlers. destruct (negb (canSend (view w))); eexists; reflexivity.
  - unfold_handlers.
    destruct (negb (truthy (activePatient (view w)))
              || negb (truthy (get (activePatient (view w)) (lit "id"))));
      eexists; reflexivity.
  - unfold_handlers. destruct (negb (truthy name)); eexists; reflexivity.
Qed.



(** X19. A load that resolves with no list or with an empty one selects
    nobody: the list of the state becomes empty, the active patient and the
    error stay, and on the page no history is asked for. A list that is
    loaded takes the place of the list of the state, whatever it held. *)
Theorem loadPatients_empty (data : PatientsPayload) (w : World) :
  (data = None \/ data = Some [] ->
   loadPatients_resume (Normal data) w
   = (Normal tt,
      {| view := {| patients := [];
                    activePatient := activePatient (view w);
                    messages := messages (view w);
                    userInput := userInput (view w);
                    loading := loading (view w);
                    savingPatient := savingPatient (view w);
                    error := error (view w) |};
         console := console w |}))
  /\ (forall (c : Config) (others : list Request),
        data = None \/ data = Some [] ->
        world c = w ->
        settle isPatients (inFlight c) = Some others ->
        exists c' : Config,
          step (PatientsSettled (Normal data)) c = Some c'
          /\ inFlight c' = others
          /\ activePatient (view (world c')) = activePatient (view w)
          /\ messages (view (world c')) = messages (view w))
  /\ (forall l : list JsVal,
        patients (view (snd (loadPatients_resume (Normal (Some l)) w))) = l).
Proof.
  assert (H1 : data = None \/ data = Some [] ->
               loadPatients_resume (Normal data) w
               = (Normal tt,
                  {| view := {| patients := [];
                                activePatient := activePatient (view w);
                                messages := messages (view w);
                                userInput := userInput (view w);
                                loading := loading (view w);
                                savingPatient := savingPatient (view w);
                                error := error (view w) |};
                     console := console w |})).
  { intros [-> | ->]; reflexivity. }
  split; [exact H1|]. split.
  - intros c others Hd <- Hs. unfold step. rewrite Hs.
    eexists; split; [reflexivity|].
    unfold handle, afterRender. rewrite (H1 Hd).
    cbn [view activePatient]. rewrite JsVal_eqb_refl.
    cbn. rewrite app_nil_r. repeat split.
  - intros l. unfold_handlers. destruct (0 <? length l); reflexivity.
Qed.

Lemma loadPatients_empty_witness :
  patients (view (snd (loadPatients_resume (Normal (Some []))
                         Scenario.typedHello))) = []
  /\ activePatient (view (snd (loadPatients_resume (Normal (Some []))
                                 Scenario.typedHello))) = Scenario.jane.
Proof.
  pose proof (proj1 (loadPatients_empty (Some []) Scenario.typedHello)
                (or_intror eq_refl)) as H.
  split.
  - exact (f_equal (fun r => patients (view (snd r))) H).
  - exact (f_equal (fun r => activePatient (view (snd r))) H).
Defined.

(* ------------------------------------------------------------------------- *)
(** ** One creation at a time *)









Lemma toggleTheme_label_witness :
  toggleTheme (lit "light") = lit "dark".
Proof.
  apply (proj2 (proj1 (proj2 (toggleTheme_label (lit "light"))))).
  reflexivity.
Defined.

(** X3. Only a response without a body can get a snippet: when such a
    response gives no field to show and its text can be read, the message
    is the status line, a dash and the snippet of the text; when the text
    cannot be read, it is the status line. *)
Theorem buildHttpError_snippet_without_body (res : Response)
    (defaultMsg : jsstring) :
  hasBody res = false ->
  truthy (fst (tryParseJson res))
  && truthy (errorField (fst (tryParseJson res))) = false ->
  buildHttpError res defaultMsg
  = match asText res with
    | Normal t =>
        Normal (Error (defaultMsg ++ lit ": HTTP " ++ decimal (status res)
                       ++ lit " " ++ statusText res
                       ++ lit " " ++ emDash ++ lit " " ++ snippetOf t))
    | Throw _ =>
        Normal (Error (defaultMsg ++ lit ": HTTP " ++ decimal (status res)
                       ++ lit " " ++ statusText res))
    end.
Proof.
  intros Hb Hf. pose proof (buildHttpError_tiers res defaultMsg) as T.
  cbv zeta in T. rewrite Hf in T.
  assert (Ht : fst (text (snd (tryParseJson res))) = asText res).
  { unfold tryParseJson, json, text. rewrite Hb. cbn [andb].
    destruct (asJson res); cbn [snd consumed hasBody bodyUsed asText];
      rewrite Hb; reflexivity. }
  rewrite Ht in T. destruct (asText res) as [t|e]; [|exact T].
  destruct T as [sn [T [Hs _]]]. rewrite T, Hs, snippetOf_firstn.
  reflexivity.
Qed.

Lemma buildHttpError_snippet_without_body_witness :
  buildHttpError Scenario.bodiless (lit "Failed to save patient")
  = Normal (Error (lit "Failed to save patient: HTTP 500 Internal Server Error "
                   ++ emDash ++ lit " ")).
Proof.
  exact (buildHttpError_snippet_without_body Scenario.bodiless
           (lit "Failed to save patient") eq_refl eq_refl).
Defined.
